(** * SWire: a shallow embedding of the packet codec, the client responder
      and the master controller of SWire.cpp / SWire.h.

    Conventions of the embedding.
    - A [char] is the 8-bit pattern of a C [char], kept as a [Z] in
      [0, 256).  Equality tests between [char]s, exclusive-or and masking
      only depend on the bit pattern, so the signedness of [char] on the
      target plays no role; where the source narrows an [int] to 8 bits
      ([Wire.write(int)]) the narrowing is written out ([to_char]).
    - A [char *] argument is the list of bytes found at the pointer.  The
      string it denotes stops at the first null byte ([c_str]); the end of
      the list stands for a terminator placed right after it.
    - An array or a [malloc]ed block is a list of its cells.  Every store
      is bounds-checked: a store outside the block ends the run with
      [OutOfBounds].
    - [malloc] is an input of the caller: [None] for a failed allocation,
      [Some cells] for a fresh block whose cells hold whatever the heap
      held (the block is not initialised by [malloc]). *)

From Stdlib Require Import ZArith Lia List Bool.
From stdpp Require Import base tactics list.
Import ListNotations.

Local Open Scope Z_scope.

(** ** Bytes and protocol constants (SWire.h) *)

Abbreviation char := Z.

Definition is_char (c : Z) : Prop := 0 <= c < 256.

(** Narrowing of an [int] to 8 bits. *)
Definition to_char (z : Z) : char := z mod 256.

Definition ACK : char := 0x86.
Definition NAK : char := 0x95.
Definition START : char := 0x82.
Definition END : char := 0x83.
Definition WRITE : char := 0xD7.
Definition READ : char := 0xD2.
Definition NO_DATA : char := 0xB0.
Definition PING : char := 0xB1.
Definition ESC : char := 0x9B.

Definition MAX_CLIENTS : Z := 16.
Definition MAX_MSG_LEN : Z := 16.
Definition MAX_MASTER_QUEUE_SIZE : Z := 40.
Definition MAX_CLIENT_QUEUE_SIZE : Z := 20.

(** ** Runs that may store outside a block *)

Inductive outcome (A : Type) : Type :=
| Done (a : A)
| OutOfBounds (i : Z).

Arguments Done {A} a.
Arguments OutOfBounds {A} i.

Definition obind {A B : Type} (m : outcome A) (k : A -> outcome B) : outcome B :=
  match m with
  | Done a => k a
  | OutOfBounds i => OutOfBounds i
  end.

Notation "'do' x <- m ; k" := (obind m (fun x => k))
  (at level 10, x name, m at level 100, k at level 200).

(** ** C strings and blocks *)

(** The bytes of the string at a pointer: everything before the first null. *)
Fixpoint c_str (m : list char) : list char :=
  match m with
  | [] => []
  | c :: m' => if c =? 0 then [] else c :: c_str m'
  end.

Definition strlen (m : list char) : Z := Z.of_nat (length (c_str m)).

(** [a[i] = v] *)
Definition store (a : list char) (i : Z) (v : char) : outcome (list char) :=
  if (0 <=? i) && (i <? Z.of_nat (length a))
  then Done (<[Z.to_nat i := v]> a)
  else OutOfBounds i.

(** [a[i]].  The code below reads cell 0 of a message that is not empty
    and cell 1 of a block of [MAX_MSG_LEN + 1] cells; outside a block the
    model answers 0. *)
Definition load (a : list char) (i : Z) : char := nth (Z.to_nat i) a 0.

(** [strcpy(dst + off, src)]: the string at [src] and its terminator are
    written from cell [off] of [dst] on. *)
Definition strcpy (dst : list char) (off : Z) (src : list char) : outcome (list char) :=
  let s := c_str src ++ [0] in
  let n := Z.to_nat off in
  if Z.of_nat (n + length s) <=? Z.of_nat (length dst)
  then Done (take n dst ++ s ++ drop (n + length s) dst)
  else OutOfBounds (Z.of_nat (length dst)).

(** ** The framer: [readPacket] *)

(** The function's [static] locals. *)
Record framer : Type := Framer {
  in_packet : Z;
  index : Z;
  buf : list char;
  data_parity : char;
  escape_next : Z
}.

(** Program start: statics are zero-initialised, [buf] has
    [MAX_MSG_LEN + 1] cells. *)
Definition framer_init : framer :=
  {| in_packet := 0; index := 0;
     buf := replicate (Z.to_nat (MAX_MSG_LEN + 1)) 0;
     data_parity := 0; escape_next := 0 |}.

(** What a call leaves behind: the return code, the statics, the bytes
    still unread in the receive buffer of [Wire], and the caller's
    [buffer]. *)
Record read_result : Type := ReadResult {
  rcode : Z;
  statics : framer;
  rx_rest : list char;
  out_buffer : list char
}.

(** The body of [if (rc == END || index >= MAX_MSG_LEN) { ... }]: the
    last byte taken in is overwritten by the terminator, the string is
    copied to the caller's [buffer], the statics are reset and the parity
    decides the return code. *)
Definition terminate_frame (st : framer) (rx' : list char) (buffer : list char)
  : outcome read_result :=
  do b <- store (buf st) (index st - 1) 0;
  do out <- strcpy buffer 0 b;
  let passed_parity := Z.land (data_parity st) 0x7F =? 0 in
  Done {| rcode := if passed_parity then 1 else -1;
          statics := {| in_packet := 0; index := 0; buf := b;
                        data_parity := 0; escape_next := escape_next st |};
          rx_rest := rx';
          out_buffer := out |}.

(** [while (Wire.available() > 0) { rc = Wire.read(); ... } return 0;]
    The receive buffer is the list [rx]; each round of the loop takes its
    head. *)
Fixpoint readPacket (st : framer) (rx : list char) (buffer : list char)
  : outcome read_result :=
  match rx with
  | [] => Done {| rcode := 0; statics := st; rx_rest := []; out_buffer := buffer |}
  | rc :: rx' =>
    if rc =? START then
      readPacket {| in_packet := 1; index := 0; buf := buf st;
                    data_parity := START; escape_next := escape_next st |}
                 rx' buffer
    else if in_packet st =? 1 then
      let dp := Z.lxor (data_parity st) rc in
      do st1 <-
        (if negb (rc =? END) then
           do b <- store (buf st) (index st) rc;
           Done {| in_packet := in_packet st; index := index st + 1; buf := b;
                   data_parity := dp; escape_next := 0 |}
         else
           Done {| in_packet := in_packet st; index := index st; buf := buf st;
                   data_parity := dp; escape_next := escape_next st |});
      if (rc =? END) || (MAX_MSG_LEN <=? index st1) then
        terminate_frame st1 rx' buffer
      else readPacket st1 rx' buffer
    else readPacket st rx' buffer
  end.

(** *** Vocabulary for statements about the framer *)

(** Exclusive-or of all the bytes of [l], starting from [a]. *)
Definition xor_all (a : Z) (l : list char) : Z := fold_left Z.lxor l a.

(** The statics once a byte that is neither START nor END has been taken
    in inside a frame. *)
Definition absorb_one (st : framer) (c : char) : framer :=
  {| in_packet := 1; index := index st + 1;
     buf := <[Z.to_nat (index st) := c]> (buf st);
     data_parity := Z.lxor (data_parity st) c; escape_next := 0 |}.

Definition absorb (st : framer) (l : list char) : framer :=
  fold_left absorb_one l st.

(** The statics right after a START byte. *)
Definition started (st : framer) : framer :=
  {| in_packet := 1; index := 0; buf := buf st; data_parity := START;
     escape_next := escape_next st |}.

(** A byte that the framer stores: neither START nor END. *)
Definition plain (c : char) : Prop := c <> START /\ c <> END.

(** The framer is inside a frame and has not stored any of its bytes. *)
Definition just_started (st : framer) : bool :=
  (in_packet st =? 1) && (index st =? 0).

(** No END comes directly after a START in [rx]; [prev_start] tells
    whether the byte before [rx] was a START. *)
Fixpoint no_empty_frame (prev_start : bool) (rx : list char) : bool :=
  match rx with
  | [] => true
  | c :: rx' =>
    if c =? START then no_empty_frame true rx'
    else if c =? END then negb prev_start && no_empty_frame false rx'
    else no_empty_frame false rx'
  end.

(** The write index is inside the block and the block has its size. *)
Definition framer_ok (st : framer) : Prop :=
  0 <= index st < MAX_MSG_LEN /\
  Z.of_nat (length (buf st)) = MAX_MSG_LEN + 1.

(** ** The bus as seen by the master

    [Wire] is an external collaborator.  The peers on the bus are a state
    machine of type [E]: [bus_frame e a bytes] is what a write transaction
    of [bytes] addressed to [a] does to them, [bus_request e a n] is what
    they answer to a read of at most [n] bytes from address [a] (no byte
    when nobody answers). *)

Class Bus (E : Type) : Type := {
  bus_frame : E -> Z -> list char -> E;
  bus_request : E -> Z -> Z -> list char * E
}.

Record wire (E : Type) : Type := Wire {
  txAddress : Z;
  txBuffer : list char;
  rxBuffer : list char;
  sent : list (Z * list char);
  peers : E
}.

Arguments Wire {E}.
Arguments txAddress {E}.
Arguments txBuffer {E}.
Arguments rxBuffer {E}.
Arguments sent {E}.
Arguments peers {E}.

Section MasterWire.
Context {E : Type} `{Bus E}.

Definition Wire_beginTransmission (address : Z) (w : wire E) : wire E :=
  {| txAddress := to_char address; txBuffer := []; rxBuffer := rxBuffer w;
     sent := sent w; peers := peers w |}.

(** [Wire.write(int)] narrows its argument to 8 bits. *)
Definition Wire_write (c : Z) (w : wire E) : wire E :=
  {| txAddress := txAddress w; txBuffer := txBuffer w ++ [to_char c];
     rxBuffer := rxBuffer w; sent := sent w; peers := peers w |}.

Definition Wire_endTransmission (w : wire E) : wire E :=
  {| txAddress := txAddress w; txBuffer := []; rxBuffer := rxBuffer w;
     sent := sent w ++ [(txAddress w, txBuffer w)];
     peers := bus_frame (peers w) (txAddress w) (txBuffer w) |}.

(** [Wire.requestFrom(address, quantity)]: the bytes obtained replace
    the receive buffer, their number is returned. *)
Definition Wire_requestFrom (address quantity : Z) (w : wire E) : Z * wire E :=
  let (reply, e) := bus_request (peers w) address quantity in
  let got := take (Z.to_nat quantity) reply in
  (Z.of_nat (length got),
   {| txAddress := txAddress w; txBuffer := txBuffer w; rxBuffer := got;
      sent := sent w; peers := e |}).

(** [Wire.read()]: the next byte of the receive buffer, [-1] when it is
    empty. *)
Definition Wire_read (w : wire E) : Z * wire E :=
  match rxBuffer w with
  | [] => (-1, w)
  | c :: rest =>
    (c, {| txAddress := txAddress w; txBuffer := txBuffer w; rxBuffer := rest;
           sent := sent w; peers := peers w |})
  end.

(** *** The serializer: [sendPacket] *)

(** [for (int i = 0; message[i] != 0; i++) data_parity = data_parity ^ (uint8_t)message[i];] *)
Definition message_parity (message : list char) : char :=
  fold_left (fun dp c => to_char (Z.lxor dp c)) (c_str message) 0.

Definition sendPacket (message : list char) (w : wire E) : Z * wire E :=
  if strlen message =? 0 then (0, w)
  else
    let data_parity := message_parity message in
    let w := Wire_beginTransmission (load message 0) w in
    let w := Wire_write START w in
    let w := fold_left (fun w c => Wire_write c w) (c_str message) w in
    let w := Wire_write (Z.lxor (Z.lxor START data_parity) END) w in
    let w := Wire_write END w in
    let w := Wire_endTransmission w in
    (1, w).
End MasterWire.

(** A bus on which nobody listens, used to look at the bytes a sender
    puts on the wire. *)
#[local] Instance silent_bus : Bus unit :=
  {| bus_frame := fun e _ _ => e; bus_request := fun e _ _ => ([], e) |}.

Definition wire0 : wire unit :=
  {| txAddress := 0; txBuffer := []; rxBuffer := []; sent := []; peers := tt |}.

(** The bytes [sendPacket] puts on the wire for [message], none when it
    refuses the message. *)
Definition serialize (message : list char) : list char :=
  match sent (snd (sendPacket message wire0)) with
  | [] => []
  | (_, frame) :: _ => frame
  end.

(** The packet of SWire.h, {START}{MESSAGE}{PARITY}{END}, with the parity
    byte that [sendPacket] writes: START ^ data_parity ^ END. *)
Definition parity_byte (payload : list char) : char :=
  Z.lxor (Z.lxor START (xor_all 0 payload)) END.

Definition frame_of (payload : list char) : list char :=
  START :: payload ++ [parity_byte payload; END].

(** A byte of a payload that passes the wire unharmed: an 8-bit value that
    is not the string terminator and not one of the two framing bytes. *)
Definition payload_byte (c : char) : Prop :=
  is_char c /\ c <> 0 /\ c <> START /\ c <> END.

(** A block as [malloc] may return it, with stale contents. *)
Definition stale_block : list char := replicate (Z.to_nat (MAX_MSG_LEN + 1)) 0xAA.

(** A payload makes the round trip when the bytes [sendPacket] writes for
    it, read by [readPacket] from its state at program start, give the
    return code 1 and the payload back in the caller's block. *)
Definition round_trips (P : list char) : Prop :=
  forall buffer : list char,
    Z.of_nat (length buffer) = MAX_MSG_LEN + 1 ->
    exists r,
      readPacket framer_init (serialize P) buffer = Done r /\
      rcode r = 1 /\ c_str (out_buffer r) = P.

(** ** The bounded message queue *)

(** Modelled from the spec: [stringQueue.h] (the type [stringQueue_t] and
    [stringQueueInit], [stringQueueAdd], [stringQueueRemove],
    [stringQueueIsEmpty]) is not among the sources.  The spec describes a
    fixed-capacity FIFO of owned byte strings whose capacity is fixed at
    construction; [push] answers false and changes nothing on a full
    queue, [pop] removes and returns the oldest entry and returns nothing
    on an empty queue.  The entries are the blocks handed over by the
    caller, so the queue itself obtains no storage per message. *)
Record stringQueue_t : Type := StringQueue {
  max_size : Z;
  entries : list (list char)
}.

Definition stringQueueInit (size : Z) : stringQueue_t :=
  {| max_size := size; entries := [] |}.

Definition stringQueueIsFull (q : stringQueue_t) : bool :=
  max_size q <=? Z.of_nat (length (entries q)).

Definition stringQueueAdd (q : stringQueue_t) (s : list char) : bool * stringQueue_t :=
  if stringQueueIsFull q then (false, q)
  else (true, {| max_size := max_size q; entries := entries q ++ [s] |}).

Definition stringQueueIsEmpty (q : stringQueue_t) : bool :=
  match entries q with
  | [] => true
  | _ :: _ => false
  end.

Definition stringQueueRemove (q : stringQueue_t) : option (list char) * stringQueue_t :=
  match entries q with
  | [] => (None, q)
  | s :: rest => (Some s, {| max_size := max_size q; entries := rest |})
  end.

(** ** The client responder *)

(** The globals of SWire.cpp on a client, the statics of [readPacket], the
    object's [_client_number], and the receive buffer of the client's
    [Wire]: [wire_rx] holds the unread bytes of the write transaction
    being delivered. *)
Record client : Type := Client {
  _in_messages : stringQueue_t;
  _out_messages : stringQueue_t;
  currentCommand : char;
  bufferAlocFailed : bool;
  rp_statics : framer;
  wire_rx : list char;
  _client_number : Z
}.

(** [SWireClient::SWireClient(client_number)] at program start. *)
Definition SWireClient (client_number : Z) : client :=
  {| _in_messages := stringQueueInit MAX_CLIENT_QUEUE_SIZE;
     _out_messages := stringQueueInit MAX_CLIENT_QUEUE_SIZE;
     currentCommand := NO_DATA;
     bufferAlocFailed := false;
     rp_statics := framer_init;
     wire_rx := [];
     _client_number := to_char client_number |}.

(** [receiveEvent(howMany)].  [fresh] is the result of
    [malloc(MAX_MSG_LEN + 1)]. *)
Definition receiveEvent (fresh : option (list char)) (c : client) : outcome client :=
  match fresh with
  | None =>
    Done {| _in_messages := _in_messages c; _out_messages := _out_messages c;
            currentCommand := currentCommand c; bufferAlocFailed := true;
            rp_statics := rp_statics c; wire_rx := wire_rx c;
            _client_number := _client_number c |}
  | Some buffer =>
    do r <- readPacket (rp_statics c) (wire_rx c) buffer;
    let buffer := out_buffer r in
    let cmd := load buffer 1 in
    let inq :=
      if negb (cmd =? PING) && negb (cmd =? READ) && negb (cmd =? NO_DATA)
      then snd (stringQueueAdd (_in_messages c) buffer)
      else _in_messages c in
    Done {| _in_messages := inq; _out_messages := _out_messages c;
            currentCommand := cmd; bufferAlocFailed := bufferAlocFailed c;
            rp_statics := statics r; wire_rx := rx_rest r;
            _client_number := _client_number c |}
  end.

(** [requestEvent()].  The bytes handed to [Wire.write] during the
    handler are the answer to the request; they are returned with the new
    state.  [stringQueueRemove] is only called on a queue that is not
    empty. *)
Definition requestEvent (c : client) : list char * client :=
  let (answer, outq) :=
    if currentCommand c =? NO_DATA then ([NO_DATA], _out_messages c)
    else if negb (currentCommand c =? READ) then ([ACK], _out_messages c)
    else if stringQueueIsEmpty (_out_messages c) then ([0], _out_messages c)
    else
      match stringQueueRemove (_out_messages c) with
      | (Some message, q) => (c_str message, q)
      | (None, q) => ([], q)
      end in
  (answer,
   {| _in_messages := _in_messages c; _out_messages := outq;
      currentCommand := NO_DATA; bufferAlocFailed := bufferAlocFailed c;
      rp_statics := rp_statics c; wire_rx := wire_rx c;
      _client_number := _client_number c |}).

(** [SWireClient::sendData(data)].  [fresh] is the result of
    [malloc(MAX_MSG_LEN + 1)]; the answer of [stringQueueAdd] is not
    looked at. *)
Definition SWireClient_sendData (fresh : option (list char)) (data : list char)
  (c : client) : outcome (Z * client) :=
  match fresh with
  | None => Done (0, c)
  | Some new_message =>
    do m1 <- strcpy new_message 1 data;
    do m2 <- store m1 0 (_client_number c);
    let outq := snd (stringQueueAdd (_out_messages c) m2) in
    Done (1,
          {| _in_messages := _in_messages c; _out_messages := outq;
             currentCommand := currentCommand c;
             bufferAlocFailed := bufferAlocFailed c;
             rp_statics := rp_statics c; wire_rx := wire_rx c;
             _client_number := _client_number c |})
  end.

(** The transport hands the bytes of a write transaction to the client
    and calls the receive handler. *)
Definition deliver (bytes : list char) (fresh : option (list char)) (c : client)
  : outcome client :=
  receiveEvent fresh
    {| _in_messages := _in_messages c; _out_messages := _out_messages c;
       currentCommand := currentCommand c; bufferAlocFailed := bufferAlocFailed c;
       rp_statics := rp_statics c; wire_rx := bytes;
       _client_number := _client_number c |}.

(** ** The master controller *)

(** The members of the [SWireMaster] object, the global [_in_messages] as
    the master uses it ([master_in_messages]; [_out_messages] and
    [currentCommand] are not used on a master), and the master's [Wire]. *)
Record master (E : Type) : Type := Master {
  _num_clients : Z;
  _clients : list Z;
  master_in_messages : stringQueue_t;
  bus : wire E
}.

Arguments Master {E}.
Arguments _num_clients {E}.
Arguments _clients {E}.
Arguments master_in_messages {E}.
Arguments bus {E}.

Section MasterController.
Context {E : Type} `{Bus E}.

(** [SWireMaster::SWireMaster()] on a bus whose peers are in state [e]. *)
Definition SWireMaster (e : E) : master E :=
  {| _num_clients := 0;
     _clients := replicate (Z.to_nat MAX_CLIENTS) 0;
     master_in_messages := stringQueueInit MAX_MASTER_QUEUE_SIZE;
     bus := {| txAddress := 0; txBuffer := []; rxBuffer := []; sent := [];
               peers := e |} |}.

(** [SWireMaster::sendData(client_id, data)].  [fresh] is the result of
    [malloc(MAX_MSG_LEN + 1)]. *)
Definition SWireMaster_sendData (fresh : option (list char)) (client_id : Z)
  (data : list char) (m : master E) : outcome (Z * master E) :=
  match fresh with
  | None => Done (0, m)
  | Some new_message =>
    do m1 <- strcpy new_message 1 data;
    do m2 <- store m1 0 (to_char client_id);
    let w := snd (sendPacket m2 (bus m)) in
    let (n, w) := Wire_requestFrom client_id 1 w in
    let m' := {| _num_clients := _num_clients m; _clients := _clients m;
                 master_in_messages := master_in_messages m; bus := w |} in
    if negb (n =? 0) then Done (1, m') else Done (0, m')
  end.

(** One round of the loop of [identifyClients], for candidate [i]. *)
Definition identify_step (i : Z) (m : master E) : outcome (master E) :=
  let message := [to_char i; PING; 0] in
  let w := snd (sendPacket message (bus m)) in
  let (n, w) := Wire_requestFrom i 1 w in
  if negb (n =? 0) then
    let (rc, w) := Wire_read w in
    if to_char rc =? ACK then
      do cl <- store (_clients m) (_num_clients m) (to_char i);
      Done {| _num_clients := to_char (_num_clients m + 1); _clients := cl;
              master_in_messages := master_in_messages m; bus := w |}
    else
      Done {| _num_clients := _num_clients m; _clients := _clients m;
              master_in_messages := master_in_messages m; bus := w |}
  else
    Done {| _num_clients := _num_clients m; _clients := _clients m;
            master_in_messages := master_in_messages m; bus := w |}.

(** [for (int i = 1; i < MAX_CLIENTS; i++) { ... }], from the current [i]
    on; [rounds] bounds the number of rounds still to run. *)
Fixpoint identify_loop (rounds : nat) (i : Z) (m : master E) : outcome (master E) :=
  match rounds with
  | O => Done m
  | S rounds' =>
    if i <? MAX_CLIENTS then
      do m' <- identify_step i m;
      identify_loop rounds' (i + 1) m'
    else Done m
  end.

(** [SWireMaster::identifyClients()]: the count found and the new state.
    From [i = 1] the loop test fails after fewer than [MAX_CLIENTS]
    rounds. *)
Definition identifyClients (m : master E) : outcome (Z * master E) :=
  let m0 := {| _num_clients := 0;
               _clients := replicate (Z.to_nat MAX_CLIENTS) 0;
               master_in_messages := master_in_messages m; bus := bus m |} in
  do m' <- identify_loop (Z.to_nat MAX_CLIENTS) 1 m0;
  Done (_num_clients m', m').

End MasterController.

(** ** Scenarios *)

(** [n] calls of [sendData] in a row on a client, each with a fresh block
    and the one-byte string "a". *)
Fixpoint send_many (n : nat) (c : client) : outcome client :=
  match n with
  | O => Done c
  | S n' =>
    do rc <- SWireClient_sendData (Some stale_block) [0x61] c;
    send_many n' (snd rc)
  end.

(** A bus with one SWire client on it, listening on its own number.  A
    write transaction addressed to the client runs its receive handler on
    the bytes (with a fresh block), a read addressed to it runs its
    request handler; other addresses are not acknowledged.  A client whose
    receive handler stored outside a block is left as it was. *)
#[local] Instance one_client_bus : Bus client :=
  {| bus_frame := fun c address bytes =>
       if address =? _client_number c then
         match deliver bytes (Some stale_block) c with
         | Done c' => c'
         | OutOfBounds _ => c
         end
       else c;
     bus_request := fun c address quantity =>
       if address =? _client_number c then requestEvent c else ([], c) |}.

(** ** The rest of the client and of the master *)

(** A [char] read as an [int]: [char] is signed on the target, the bit
    patterns from 0x80 on are the negative values. *)
Definition char_to_int (c : char) : Z := if c <? 128 then c else c - 256.


(** [memcpy(dst, src, n)] on arrays of bytes; reading past [src] or
    writing past [dst] ends the run. *)
Definition memcpy (dst src : list Z) (n : Z) : outcome (list Z) :=
  let k := Z.to_nat n in
  if (Z.of_nat k <=? Z.of_nat (length dst)) && (Z.of_nat k <=? Z.of_nat (length src))
  then Done (take k src ++ drop k dst)
  else OutOfBounds (Z.of_nat (min (length dst) (length src))).

Section MasterPolling.
Context {E : Type} `{Bus E}.

(** [SWireMaster::getClients(clients)]; [None] is the null pointer. *)
Definition SWireMaster_getClients (clients : option (list Z)) (m : master E)
  : outcome (Z * option (list Z)) :=
  match clients with
  | None => Done (_num_clients m, None)
  | Some dst =>
    do out <- memcpy dst (_clients m) (_num_clients m);
    Done (_num_clients m, Some out)
  end.

(** The inner loop of [scanMessages], from the current [idx] and [rc] on:
    [for (byte idx = 0; idx < MAX_MSG_LEN; idx++) { message[idx] = rc;
    rc = Wire.read(); if (rc == (char)0xff) { message[idx + 1] = '\0';
    break; } }].  [rounds] bounds the number of rounds still to run. *)
Fixpoint read_message (rounds : nat) (idx : Z) (rc : char) (message : list char)
  (w : wire E) : outcome (list char * wire E) :=
  match rounds with
  | O => Done (message, w)
  | S rounds' =>
    if idx <? MAX_MSG_LEN then
      do message <- store message idx rc;
      let (r, w) := Wire_read w in
      let rc := to_char r in
      if rc =? 0xFF then
        do message <- store message (idx + 1) 0;
        Done (message, w)
      else read_message rounds' (idx + 1) rc message w
    else Done (message, w)
  end.

(** One round of the outer loop of [scanMessages], for table index [i].
    [fresh] is the result of [malloc(MAX_MSG_LEN + 1)], which the source
    does not test: the null pointer is a block without cells, so that the
    first store through it ends the run. *)
Definition scan_step (fresh : option (list char)) (i : Z) (m : master E)
  : outcome (master E) :=
  let message := match fresh with Some b => b | None => [] end in
  let cl := nth (Z.to_nat i) (_clients m) 0 in
  let msg := [to_char cl; READ; 0] in
  let w := snd (sendPacket msg (bus m)) in
  let (n, w) := Wire_requestFrom cl 8 w in
  if 1 <? n then
    let (r, w) := Wire_read w in
    let rc := to_char r in
    if negb (rc =? 0) && negb (rc =? ACK) && negb (rc =? NO_DATA) then
      do mw <- read_message (Z.to_nat MAX_MSG_LEN) 0 rc message w;
      Done {| _num_clients := _num_clients m; _clients := _clients m;
              master_in_messages :=
                snd (stringQueueAdd (master_in_messages m) (fst mw));
              bus := snd mw |}
    else
      Done {| _num_clients := _num_clients m; _clients := _clients m;
              master_in_messages := master_in_messages m; bus := w |}
  else
    Done {| _num_clients := _num_clients m; _clients := _clients m;
            master_in_messages := master_in_messages m; bus := w |}.

(** [for (byte i = 0; i < _num_clients; i++) { ... }], from the current
    [i] on; [fresh k] is the result of the [malloc] of round [k]. *)
Fixpoint scan_loop (rounds : nat) (fresh : Z -> option (list char)) (i : Z)
  (m : master E) : outcome (master E) :=
  match rounds with
  | O => Done m
  | S rounds' =>
    if i <? _num_clients m then
      do m' <- scan_step (fresh i) i m;
      scan_loop rounds' fresh (i + 1) m'
    else Done m
  end.

(** [SWireMaster::scanMessages()].  [_num_clients] is a byte, so the loop
    test fails after at most 255 rounds. *)
Definition scanMessages (fresh : Z -> option (list char)) (m : master E)
  : outcome (master E) :=
  scan_loop 256 fresh 0 m.

(** [SWireMaster::getData(buffer)].  [lastTime] is the function's static,
    [now] and [now'] are what the two calls of [millis()] return
    ([unsigned long], 32 bits, as is the subtraction).  The answer, the
    caller's [buffer], the new [lastTime] and the new state. *)
Definition SWireMaster_getData (fresh : Z -> option (list char))
  (lastTime now now' : Z) (buffer : list char) (m : master E)
  : outcome (Z * list char * Z * master E) :=
  do tm <-
    (if 100 <? (now - lastTime) mod 2 ^ 32 then
       do m' <- scanMessages fresh m; Done (now', m')
     else Done (lastTime, m));
  let (lastTime', m) := tm in
  if stringQueueIsEmpty (master_in_messages m) then Done (0, buffer, lastTime', m)
  else
    match stringQueueRemove (master_in_messages m) with
    | (Some message, q) =>
      let client_id := char_to_int (load message 0) in
      do out <- strcpy buffer 0 (drop 1 message);
      Done (client_id, out, lastTime',
            {| _num_clients := _num_clients m; _clients := _clients m;
               master_in_messages := q; bus := bus m |})
    | (None, _) => Done (0, buffer, lastTime', m)
    end.

End MasterPolling.

(** *** Vocabulary for statements about the rest *)

(** The bytes of [l] before the first 0xFF. *)
Fixpoint until_ff (l : list char) : list char :=
  match l with
  | [] => []
  | c :: l' => if c =? 0xFF then [] else c :: until_ff l'
  end.

(** The framer's statics as the code keeps them: the write index in
    range, [buf] of its size, and inside a frame only stored bytes below
    the write index. *)
Definition framer_inv (st : framer) : Prop :=
  framer_ok st /\
  (in_packet st = 1 -> Forall plain (take (Z.to_nat (index st)) (buf st))).

(** A client table as [identifyClients] leaves it: [n] entries, in
    ascending order, each a candidate below [bound]. *)
Fixpoint ascending_from (lo : Z) (l : list Z) : Prop :=
  match l with
  | [] => True
  | a :: l' => lo <= a /\ ascending_from (a + 1) l'
  end.

(** A message as [scanMessages] hands it to the inbound queue: a block of
    MAX_MSG_LEN + 1 cells holding a string of at most 8 bytes whose first
    byte is none of null, ACK and NO_DATA. *)
Definition polled_message (msg : list char) : Prop :=
  is_char (load msg 0) /\
  load msg 0 <> 0 /\ load msg 0 <> ACK /\ load msg 0 <> NO_DATA /\
  strlen msg <= 8 /\ Z.of_nat (length msg) = MAX_MSG_LEN + 1.

(** A bus that delivers bytes. *)
Definition bus_of_bytes {E : Type} `{Bus E} : Prop :=
  forall (e : E) (address quantity : Z),
    Forall is_char (fst (bus_request e address quantity)).

(** Every allocation of a message block succeeds. *)
Definition blocks_available (fresh : Z -> option (list char)) : Prop :=
  forall k, exists block,
    fresh k = Some block /\ Z.of_nat (length block) = MAX_MSG_LEN + 1.

(** A bus whose answers are scripted: each request is answered with the
    next list of the script, narrowed to bytes; write transactions are
    not looked at.  Used to run the master against given answers. *)
#[local] Instance scripted_bus : Bus (list (list Z)) :=
  {| bus_frame := fun script _ _ => script;
     bus_request := fun script _ _ => (map to_char (hd [] script), tl script) |}.

(** * Properties *)

(** ** Bytes *)

Lemma to_char_id (c : Z) : is_char c -> to_char c = c.
Proof. unfold is_char, to_char. intros Hc. apply Z.mod_small. lia. Qed.

Lemma to_char_is_char (z : Z) : is_char (to_char z).
Proof. unfold is_char, to_char. apply Z.mod_pos_bound. lia. Qed.

Lemma to_char_lxor (a b : Z) : to_char (Z.lxor a b) = Z.lxor (to_char a) (to_char b).
Proof.
  unfold to_char. change 256 with (2 ^ 8).
  rewrite <- !Z.land_ones by lia.
  apply Z.bits_inj'. intros n Hn.
  rewrite !Z.lxor_spec, !Z.land_spec, !Z.lxor_spec.
  destruct (Z.testbit (Z.ones 8) n); rewrite ?andb_true_r, ?andb_false_r; reflexivity.
Qed.

Lemma lxor_is_char (a b : Z) : is_char a -> is_char b -> is_char (Z.lxor a b).
Proof.
  intros Ha Hb. rewrite <- (to_char_id a Ha), <- (to_char_id b Hb), <- to_char_lxor.
  apply to_char_is_char.
Qed.

Lemma xor_all_app (a : Z) (l r : list char) :
  xor_all a (l ++ r) = xor_all (xor_all a l) r.
Proof. unfold xor_all. apply fold_left_app. Qed.

Lemma xor_all_shift (a b : Z) (l : list char) :
  xor_all (Z.lxor a b) l = Z.lxor a (xor_all b l).
Proof.
  revert b. induction l as [|c l IH]; intros b; simpl; [reflexivity|].
  rewrite <- IH. f_equal. apply Z.lxor_assoc.
Qed.

Lemma xor_all_is_char (a : Z) (l : list char) :
  is_char a -> Forall is_char l -> is_char (xor_all a l).
Proof.
  intros Ha Hl. revert a Ha. induction Hl as [|c l Hc Hl IH]; intros a Ha; simpl; [exact Ha|].
  apply IH. apply lxor_is_char; assumption.
Qed.

(** ** C strings and blocks *)

Lemma c_str_no_nul (l : list char) : Forall (fun c => c <> 0) (c_str l).
Proof.
  induction l as [|c l IH]; simpl; [constructor|].
  destruct (Z.eqb_spec c 0); [constructor|]. constructor; assumption.
Qed.

Lemma c_str_fixed (l : list char) : Forall (fun c => c <> 0) l -> c_str l = l.
Proof.
  induction 1 as [|c l Hc Hl IH]; simpl; [reflexivity|].
  destruct (Z.eqb_spec c 0); [contradiction|]. f_equal. exact IH.
Qed.

Lemma c_str_app_nul (l r : list char) : c_str (l ++ 0 :: r) = c_str l.
Proof.
  induction l as [|c l IH]; simpl; [reflexivity|].
  destruct (c =? 0); [reflexivity|]. f_equal. exact IH.
Qed.

Lemma c_str_length_le (l : list char) : (length (c_str l) <= length l)%nat.
Proof.
  induction l as [|c l IH]; simpl; [lia|].
  destruct (c =? 0); simpl; lia.
Qed.

Lemma c_str_insert_nul (l : list char) (n : nat) :
  (n < length l)%nat -> c_str (<[n := 0]> l) = c_str (take n l).
Proof.
  intros Hn. rewrite insert_take_drop by exact Hn.
  apply c_str_app_nul.
Qed.

Lemma store_in_range (a : list char) (i : Z) (v : char) :
  0 <= i < Z.of_nat (length a) ->
  store a i v = Done (<[Z.to_nat i := v]> a).
Proof.
  intros Hi. unfold store.
  destruct (Z.leb_spec 0 i); [|lia].
  destruct (Z.ltb_spec i (Z.of_nat (length a))); [reflexivity|lia].
Qed.

Lemma store_out_of_range (a : list char) (i : Z) (v : char) :
  i < 0 \/ Z.of_nat (length a) <= i ->
  store a i v = OutOfBounds i.
Proof.
  intros Hi. unfold store.
  destruct (Z.leb_spec 0 i); [|reflexivity].
  destruct (Z.ltb_spec i (Z.of_nat (length a))); [lia|reflexivity].
Qed.

(** [strcpy] to the start of a block that is large enough writes the
    source string and its terminator and keeps the size of the block. *)
Lemma strcpy_fits (dst src : list char) :
  (length (c_str src) < length dst)%nat ->
  exists out,
    strcpy dst 0 src = Done out /\ c_str out = c_str src /\
    length out = length dst.
Proof.
  intros Hlen. unfold strcpy. simpl Z.to_nat. simpl take. simpl "+"%nat.
  rewrite length_app. simpl length.
  destruct (Z.leb_spec (Z.of_nat (length (c_str src) + 1)) (Z.of_nat (length dst))); [|lia].
  eexists. split; [reflexivity|]. split.
  - simpl. rewrite <- app_assoc. simpl. rewrite c_str_app_nul.
    apply c_str_fixed, c_str_no_nul.
  - simpl. rewrite !length_app, length_drop. simpl. lia.
Qed.

(** ** The framer, one byte at a time *)

Lemma readPacket_START (st : framer) (rx buffer : list char) :
  readPacket st (START :: rx) buffer = readPacket (started st) rx buffer.
Proof. reflexivity. Qed.

Lemma readPacket_idle_skip (st : framer) (c : char) (rx buffer : list char) :
  c <> START -> in_packet st <> 1 ->
  readPacket st (c :: rx) buffer = readPacket st rx buffer.
Proof.
  intros Hc Hin. simpl.
  destruct (Z.eqb_spec c START); [contradiction|].
  destruct (Z.eqb_spec (in_packet st) 1); [contradiction|reflexivity].
Qed.

Lemma readPacket_plain (st : framer) (c : char) (rx buffer : list char) :
  in_packet st = 1 -> plain c ->
  0 <= index st < Z.of_nat (length (buf st)) ->
  index st + 1 < MAX_MSG_LEN ->
  readPacket st (c :: rx) buffer = readPacket (absorb_one st c) rx buffer.
Proof.
  intros Hin [Hs He] Hidx Hroom. simpl.
  destruct (Z.eqb_spec c START); [contradiction|].
  rewrite Hin. simpl.
  destruct (Z.eqb_spec c END); [contradiction|]. simpl.
  rewrite store_in_range by exact Hidx. simpl.
  destruct (Z.leb_spec MAX_MSG_LEN (index st + 1)); [lia|].
  reflexivity.
Qed.

Lemma readPacket_END (st : framer) (rx buffer : list char) :
  in_packet st = 1 ->
  readPacket st (END :: rx) buffer =
  terminate_frame
    {| in_packet := 1; index := index st; buf := buf st;
       data_parity := Z.lxor (data_parity st) END;
       escape_next := escape_next st |} rx buffer.
Proof. intros Hin. simpl. rewrite Hin. reflexivity. Qed.

Lemma readPacket_cutoff (st : framer) (c : char) (rx buffer : list char) :
  in_packet st = 1 -> plain c ->
  0 <= index st < Z.of_nat (length (buf st)) ->
  MAX_MSG_LEN <= index st + 1 ->
  readPacket st (c :: rx) buffer = terminate_frame (absorb_one st c) rx buffer.
Proof.
  intros Hin [Hs He] Hidx Hfull. simpl.
  destruct (Z.eqb_spec c START); [contradiction|].
  rewrite Hin. simpl.
  destruct (Z.eqb_spec c END); [contradiction|]. simpl.
  rewrite store_in_range by exact Hidx. simpl.
  destruct (Z.leb_spec MAX_MSG_LEN (index st + 1)); [reflexivity|lia].
Qed.

(** Ending a frame that holds at least one byte: the result, with the
    string handed to the caller. *)
Lemma terminate_frame_done (st : framer) (rx buffer : list char) :
  1 <= index st <= Z.of_nat (length (buf st)) ->
  (length (buf st) <= length buffer)%nat ->
  exists out,
    terminate_frame st rx buffer =
      Done {| rcode := if Z.land (data_parity st) 0x7F =? 0 then 1 else -1;
              statics := {| in_packet := 0; index := 0;
                            buf := <[Z.to_nat (index st - 1) := 0]> (buf st);
                            data_parity := 0; escape_next := escape_next st |};
              rx_rest := rx; out_buffer := out |} /\
    c_str out = c_str (take (Z.to_nat (index st - 1)) (buf st)) /\
    length out = length buffer.
Proof.
  intros Hidx Hlen. unfold terminate_frame.
  rewrite store_in_range by lia. cbn [obind].
  assert (Hn : (Z.to_nat (index st - 1) < length (buf st))%nat) by lia.
  destruct (strcpy_fits buffer (<[Z.to_nat (index st - 1) := 0]> (buf st)))
    as (out & Hcpy & Hstr & Hout).
  { rewrite c_str_insert_nul by exact Hn.
    pose proof (c_str_length_le (take (Z.to_nat (index st - 1)) (buf st))) as Hle.
    rewrite length_take in Hle. lia. }
  exists out. rewrite Hcpy. cbn [obind]. split; [reflexivity|]. split; [|exact Hout].
  rewrite Hstr. apply c_str_insert_nul. exact Hn.
Qed.

(** Ending a frame that holds no byte stores at index -1. *)
Lemma terminate_frame_empty (st : framer) (rx buffer : list char) :
  index st = 0 -> terminate_frame st rx buffer = OutOfBounds (-1).
Proof.
  intros Hidx. unfold terminate_frame. rewrite Hidx.
  rewrite store_out_of_range by lia. reflexivity.
Qed.

(** ** The framer, a run of stored bytes at a time *)

Lemma absorb_cons (st : framer) (c : char) (l : list char) :
  absorb st (c :: l) = absorb (absorb_one st c) l.
Proof. reflexivity. Qed.

Lemma absorb_index (st : framer) (l : list char) :
  index (absorb st l) = index st + Z.of_nat (length l).
Proof.
  revert st. induction l as [|c l IH]; intros st; [simpl; lia|].
  rewrite absorb_cons, IH. simpl. lia.
Qed.

Lemma absorb_buf_length (st : framer) (l : list char) :
  length (buf (absorb st l)) = length (buf st).
Proof.
  revert st. induction l as [|c l IH]; intros st; [reflexivity|].
  rewrite absorb_cons, IH. simpl. apply length_insert.
Qed.

Lemma absorb_parity (st : framer) (l : list char) :
  data_parity (absorb st l) = xor_all (data_parity st) l.
Proof.
  revert st. induction l as [|c l IH]; intros st; [reflexivity|].
  rewrite absorb_cons, IH. reflexivity.
Qed.

Lemma absorb_in_packet (st : framer) (l : list char) :
  in_packet st = 1 -> in_packet (absorb st l) = 1.
Proof.
  revert st. induction l as [|c l IH]; intros st Hin; [exact Hin|].
  rewrite absorb_cons. apply IH. reflexivity.
Qed.

Lemma absorb_app (st : framer) (l r : list char) :
  absorb st (l ++ r) = absorb (absorb st l) r.
Proof. unfold absorb. apply fold_left_app. Qed.

(** The bytes taken in sit in [buf] from the old write index on. *)
Lemma absorb_buf_take (st : framer) (l : list char) :
  0 <= index st ->
  index st + Z.of_nat (length l) <= Z.of_nat (length (buf st)) ->
  take (Z.to_nat (index st) + length l) (buf (absorb st l)) =
  take (Z.to_nat (index st)) (buf st) ++ l.
Proof.
  revert st. induction l as [|c l IH]; intros st H0 Hfit.
  - simpl. rewrite Nat.add_0_r, app_nil_r. reflexivity.
  - simpl in Hfit. change (absorb st (c :: l)) with (absorb (absorb_one st c) l).
    specialize (IH (absorb_one st c)). simpl index in IH. simpl buf in IH.
    rewrite length_insert in IH.
    replace (Z.to_nat (index st) + length (c :: l))%nat
      with (Z.to_nat (index st + 1) + length l)%nat by (simpl; lia).
    rewrite IH by lia.
    replace (Z.to_nat (index st + 1)) with (S (Z.to_nat (index st))) by lia.
    rewrite (take_S_r _ _ c).
    + rewrite take_insert_ge by lia. rewrite <- app_assoc. reflexivity.
    + apply list_lookup_insert_eq. lia.
Qed.

(** Inside a frame, a run of plain bytes that stays below the cut-off is
    taken in whole. *)
Lemma readPacket_absorb (st : framer) (l rx buffer : list char) :
  in_packet st = 1 -> Forall plain l ->
  0 <= index st ->
  index st + Z.of_nat (length l) < MAX_MSG_LEN ->
  MAX_MSG_LEN <= Z.of_nat (length (buf st)) ->
  readPacket st (l ++ rx) buffer = readPacket (absorb st l) rx buffer.
Proof.
  intros Hin Hl. revert st Hin.
  induction Hl as [|c l Hc Hl IH]; intros st Hin H0 Hroom Hbuf; [reflexivity|].
  simpl length in Hroom. rewrite <- app_comm_cons.
  rewrite readPacket_plain by (try assumption; lia).
  change (absorb st (c :: l)) with (absorb (absorb_one st c) l).
  apply IH; simpl; try rewrite length_insert; try reflexivity; lia.
Qed.

(** ** The write index of the framer (C9) *)

(** From statics whose write index is in range, on an input in which no
    END comes directly after a START, a call stores inside [buf] only and
    leaves the write index in range. *)
Lemma readPacket_in_bounds (rx : list char) :
  forall (st : framer) (buffer : list char),
    framer_ok st ->
    Z.of_nat (length buffer) = MAX_MSG_LEN + 1 ->
    no_empty_frame (just_started st) rx = true ->
    exists r, readPacket st rx buffer = Done r /\ framer_ok (statics r).
Proof.
  unfold MAX_MSG_LEN.
  induction rx as [|c rx IH]; intros st buffer [Hidx Hbuf] Hbuffer Hne;
    unfold MAX_MSG_LEN in *.
  - eexists. split; [reflexivity|]. split; assumption.
  - simpl in Hne. destruct (Z.eqb_spec c START) as [->|Hs].
    + rewrite readPacket_START. apply IH.
      * split; simpl; [unfold MAX_MSG_LEN; lia|exact Hbuf].
      * exact Hbuffer.
      * exact Hne.
    + destruct (Z.eq_dec (in_packet st) 1) as [Hin|Hin].
      * destruct (Z.eqb_spec c END) as [->|He].
        -- apply andb_true_iff in Hne as [Hjs _].
           unfold just_started in Hjs. rewrite Hin in Hjs. simpl in Hjs.
           apply negb_true_iff, Z.eqb_neq in Hjs.
           rewrite readPacket_END by exact Hin.
           edestruct terminate_frame_done as (out & -> & _ & _);
             [| |eexists; split; [reflexivity|]].
           ++ simpl. lia.
           ++ simpl. lia.
           ++ split; simpl; [unfold MAX_MSG_LEN; lia|].
              rewrite length_insert. exact Hbuf.
        -- destruct (Z_lt_le_dec (index st + 1) 16) as [Hroom|Hfull].
           ++ rewrite readPacket_plain
                by (try assumption; try split; try assumption;
                    unfold MAX_MSG_LEN; lia).
              apply IH.
              ** split; simpl; [unfold MAX_MSG_LEN; lia|].
                 rewrite length_insert. exact Hbuf.
              ** exact Hbuffer.
              ** unfold just_started. simpl.
                 replace (index st + 1 =? 0) with false
                   by (symmetry; apply Z.eqb_neq; lia).
                 exact Hne.
           ++ rewrite readPacket_cutoff
                by (try assumption; try split; try assumption;
                    unfold MAX_MSG_LEN; lia).
              edestruct terminate_frame_done as (out & -> & _ & _);
                [| |eexists; split; [reflexivity|]].
              ** simpl. rewrite length_insert. lia.
              ** simpl. rewrite length_insert. lia.
              ** split; simpl; [unfold MAX_MSG_LEN; lia|].
                 rewrite !length_insert. exact Hbuf.
      * rewrite readPacket_idle_skip by assumption.
        apply IH; [split; assumption|exact Hbuffer|].
        assert (Hjs : just_started st = false).
        { unfold just_started. apply Z.eqb_neq in Hin. rewrite Hin. reflexivity. }
        rewrite Hjs in *. destruct (c =? END); simpl in Hne; exact Hne.
Qed.

(** The only store outside a block that a call can attempt is the one at
    index -1, and only on an input with an END directly after a START. *)
Lemma readPacket_fault_index (rx : list char) :
  forall (st : framer) (buffer : list char) (i : Z),
    framer_ok st ->
    Z.of_nat (length buffer) = MAX_MSG_LEN + 1 ->
    readPacket st rx buffer = OutOfBounds i ->
    i = -1.
Proof.
  induction rx as [|c rx IH]; intros st buffer i [Hidx Hbuf] Hbuffer Hrun;
    unfold MAX_MSG_LEN in *.
  - discriminate Hrun.
  - destruct (Z.eqb_spec c START) as [->|Hs].
    + rewrite readPacket_START in Hrun. eapply IH; [|exact Hbuffer|exact Hrun].
      split; simpl; [unfold MAX_MSG_LEN; lia|exact Hbuf].
    + destruct (Z.eq_dec (in_packet st) 1) as [Hin|Hin].
      * destruct (Z.eqb_spec c END) as [->|He].
        -- rewrite readPacket_END in Hrun by exact Hin.
           destruct (Z.eq_dec (index st) 0) as [Hz|Hz].
           ++ rewrite terminate_frame_empty in Hrun by exact Hz.
              injection Hrun as <-. reflexivity.
           ++ edestruct terminate_frame_done as (out & Hdone & _);
                [| |rewrite Hdone in Hrun; discriminate Hrun]; simpl; lia.
        -- destruct (Z_lt_le_dec (index st + 1) 16) as [Hroom|Hfull].
           ++ rewrite readPacket_plain in Hrun
                by (try assumption; try split; try assumption; unfold MAX_MSG_LEN; lia).
              eapply IH; [|exact Hbuffer|exact Hrun].
              split; simpl; [unfold MAX_MSG_LEN; lia|].
              rewrite length_insert. exact Hbuf.
           ++ rewrite readPacket_cutoff in Hrun
                by (try assumption; try split; try assumption; unfold MAX_MSG_LEN; lia).
              edestruct terminate_frame_done as (out & Hdone & _);
                [| |rewrite Hdone in Hrun; discriminate Hrun];
                simpl; rewrite length_insert; lia.
      * rewrite readPacket_idle_skip in Hrun by assumption.
        eapply IH; [|exact Hbuffer|exact Hrun]. split; assumption.
Qed.

(** ** Whole frames through the framer *)

(** After a START and a run [body] of stored bytes, [buf] starts with
    [body]. *)
Lemma absorb_started_take (st : framer) (body : list char) :
  (length body <= length (buf st))%nat ->
  take (length body) (buf (absorb (started st) body)) = body.
Proof.
  intros Hfit.
  pose proof (absorb_buf_take (started st) body) as Htake.
  simpl in Htake. apply Htake; lia.
Qed.

Lemma absorb_started_take_pred (st : framer) (body : list char) :
  (length body <= length (buf st))%nat ->
  take (length body - 1) (buf (absorb (started st) body)) =
  take (length body - 1) body.
Proof.
  intros Hfit.
  transitivity (take (length body - 1)
                  (take (length body) (buf (absorb (started st) body)))).
  - rewrite take_take. f_equal. lia.
  - rewrite absorb_started_take by exact Hfit. reflexivity.
Qed.

(** A frame closed by END: START, then [body] (the payload followed by
    the parity byte), then END.  The string handed out is [body] without
    its last byte, the return code is decided by the low seven bits of the
    exclusive-or of START, [body] and END. *)
Lemma readPacket_frame (st : framer) (body rx buffer : list char) :
  Forall plain body ->
  (1 <= length body)%nat -> Z.of_nat (length body) < MAX_MSG_LEN ->
  Z.of_nat (length (buf st)) = MAX_MSG_LEN + 1 ->
  Z.of_nat (length buffer) = MAX_MSG_LEN + 1 ->
  exists r,
    readPacket st (START :: body ++ END :: rx) buffer = Done r /\
    rcode r = (if Z.land (Z.lxor (xor_all START body) END) 0x7F =? 0
               then 1 else -1) /\
    rx_rest r = rx /\
    c_str (out_buffer r) = c_str (take (length body - 1) body) /\
    length (out_buffer r) = length buffer /\
    in_packet (statics r) = 0 /\ index (statics r) = 0 /\
    length (buf (statics r)) = length (buf st).
Proof.
  unfold MAX_MSG_LEN. intros Hplain Hne Hlt Hbuf Hbuffer.
  rewrite readPacket_START.
  rewrite readPacket_absorb
    by (try assumption; try reflexivity; simpl; unfold MAX_MSG_LEN; lia).
  rewrite readPacket_END by (apply absorb_in_packet; reflexivity).
  match goal with |- context [terminate_frame ?s _ _] => set (st1 := s) end.
  destruct (terminate_frame_done st1 rx buffer) as (out & Hrun & Hstr & Hout).
  { subst st1. simpl. rewrite absorb_index, absorb_buf_length. simpl. lia. }
  { subst st1. simpl. rewrite absorb_buf_length. simpl. lia. }
  eexists. split; [exact Hrun|]. subst st1. simpl in *.
  rewrite absorb_parity, absorb_index in *. simpl in *.
  repeat split; try reflexivity; try assumption.
  - rewrite Hstr. f_equal.
    match goal with |- context [take ?n (buf _)] =>
      replace n with (length body - 1)%nat by lia end.
    apply absorb_started_take_pred. lia.
  - rewrite length_insert, absorb_buf_length. reflexivity.
Qed.

(** A frame cut off by the framer: START, then [MAX_MSG_LEN] stored bytes.
    The call returns on the last of them, whatever follows stays unread. *)
Lemma readPacket_cut (st : framer) (body rx buffer : list char) :
  Forall plain body ->
  Z.of_nat (length body) = MAX_MSG_LEN ->
  Z.of_nat (length (buf st)) = MAX_MSG_LEN + 1 ->
  Z.of_nat (length buffer) = MAX_MSG_LEN + 1 ->
  exists r,
    readPacket st (START :: body ++ rx) buffer = Done r /\
    rcode r = (if Z.land (xor_all START body) 0x7F =? 0 then 1 else -1) /\
    rx_rest r = rx /\
    c_str (out_buffer r) = c_str (take (length body - 1) body) /\
    length (out_buffer r) = length buffer /\
    in_packet (statics r) = 0 /\ index (statics r) = 0 /\
    length (buf (statics r)) = length (buf st).
Proof.
  unfold MAX_MSG_LEN. intros Hplain Hlen Hbuf Hbuffer.
  destruct (exists_last (l := body)) as (l & c & ->).
  { intros ->. simpl in Hlen. lia. }
  rewrite length_app in Hlen. simpl in Hlen.
  apply Forall_app in Hplain as [Hl Hc]. apply Forall_inv in Hc.
  rewrite readPacket_START, <- app_assoc.
  rewrite readPacket_absorb
    by (try assumption; try reflexivity; simpl; unfold MAX_MSG_LEN; lia).
  simpl app.
  rewrite readPacket_cutoff;
    [|apply absorb_in_packet; reflexivity|exact Hc
     |rewrite absorb_index, absorb_buf_length; simpl; lia
     |rewrite absorb_index; simpl; unfold MAX_MSG_LEN; lia].
  change (absorb_one (absorb (started st) l) c)
    with (absorb (absorb (started st) l) [c]).
  rewrite <- absorb_app.
  destruct (terminate_frame_done (absorb (started st) (l ++ [c])) rx buffer)
    as (out & Hrun & Hstr & Hout).
  { rewrite absorb_index, absorb_buf_length, length_app. simpl. lia. }
  { rewrite absorb_buf_length. simpl. lia. }
  eexists. split; [exact Hrun|]. simpl.
  rewrite absorb_parity, absorb_index in *. simpl in *.
  repeat split; try reflexivity; try assumption.
  - rewrite Hstr. f_equal.
    match goal with |- context [take ?n (buf _)] =>
      replace n with (length (l ++ [c]) - 1)%nat by lia end.
    apply absorb_started_take_pred. rewrite length_app. simpl. lia.
  - rewrite length_insert, absorb_buf_length. reflexivity.
Qed.

(** ** The serializer *)

Section Serializer.
Context {E : Type} `{Bus E}.

Lemma Wire_write_all (l : list char) (w : wire E) :
  fold_left (fun w c => Wire_write c w) l w =
  {| txAddress := txAddress w; txBuffer := txBuffer w ++ map to_char l;
     rxBuffer := rxBuffer w; sent := sent w; peers := peers w |}.
Proof.
  revert w. induction l as [|c l IH]; intros w; simpl.
  - rewrite app_nil_r. destruct w; reflexivity.
  - rewrite IH. simpl. rewrite <- app_assoc. reflexivity.
Qed.

Lemma map_to_char_id (l : list char) : Forall is_char l -> map to_char l = l.
Proof.
  induction 1 as [|c l Hc Hl IH]; simpl; [reflexivity|].
  rewrite to_char_id, IH by assumption. reflexivity.
Qed.

Lemma parity_fold (l : list char) (a : char) :
  is_char a -> Forall is_char l ->
  fold_left (fun dp c => to_char (Z.lxor dp c)) l a = xor_all a l.
Proof.
  intros Ha Hl. revert a Ha.
  induction Hl as [|c l Hc Hl IH]; intros a Ha; simpl; [reflexivity|].
  rewrite to_char_id by (apply lxor_is_char; assumption).
  apply IH. apply lxor_is_char; assumption.
Qed.

Lemma parity_byte_is_char (l : list char) :
  Forall is_char l -> is_char (parity_byte l).
Proof.
  intros Hl. unfold parity_byte.
  repeat apply lxor_is_char; try (unfold is_char, START, END; lia).
  apply xor_all_is_char; [unfold is_char; lia|exact Hl].
Qed.

(** [sendPacket] on a message that is not empty: one write transaction,
    addressed to the first byte of the message, carrying the frame. *)
Lemma sendPacket_frame (message : list char) (w : wire E) :
  c_str message <> [] -> Forall is_char (c_str message) ->
  sendPacket message w =
  (1, {| txAddress := to_char (load message 0); txBuffer := [];
         rxBuffer := rxBuffer w;
         sent := sent w ++ [(to_char (load message 0), frame_of (c_str message))];
         peers := bus_frame (peers w) (to_char (load message 0))
                    (frame_of (c_str message)) |}).
Proof.
  intros Hne Hchars. unfold sendPacket, strlen.
  destruct (Z.eqb_spec (Z.of_nat (length (c_str message))) 0) as [Hz|_].
  { destruct (c_str message); [contradiction|simpl in Hz; lia]. }
  rewrite Wire_write_all. unfold message_parity.
  rewrite parity_fold by (try assumption; unfold is_char; lia).
  unfold Wire_endTransmission, Wire_write, Wire_beginTransmission. simpl.
  rewrite map_to_char_id by exact Hchars.
  fold (parity_byte (c_str message)).
  rewrite (to_char_id (parity_byte _)) by (apply parity_byte_is_char; exact Hchars).
  change (to_char START) with START. change (to_char END) with END.
  unfold frame_of. rewrite <- !app_assoc. reflexivity.
Qed.

(** A message that is empty is refused and nothing is written. *)
Lemma sendPacket_empty (message : list char) (w : wire E) :
  c_str message = [] -> sendPacket message w = (0, w).
Proof. intros He. unfold sendPacket, strlen. rewrite He. reflexivity. Qed.

End Serializer.

Lemma serialize_frame (message : list char) :
  c_str message <> [] -> Forall is_char (c_str message) ->
  serialize message = frame_of (c_str message).
Proof.
  intros Hne Hchars. unfold serialize.
  rewrite sendPacket_frame by assumption. reflexivity.
Qed.

Lemma payload_bytes_c_str (P : list char) : Forall payload_byte P -> c_str P = P.
Proof.
  intros HP. apply c_str_fixed. eapply Forall_impl; [exact HP|].
  intros c (_ & Hc & _). exact Hc.
Qed.

Lemma payload_bytes_plain (P : list char) : Forall payload_byte P -> Forall plain P.
Proof.
  intros HP. eapply Forall_impl; [exact HP|].
  intros c (_ & _ & Hs & He). split; assumption.
Qed.

Lemma payload_bytes_char (P : list char) : Forall payload_byte P -> Forall is_char P.
Proof.
  intros HP. eapply Forall_impl; [exact HP|].
  intros c (Hc & _). exact Hc.
Qed.

Lemma serialize_payload (P : list char) :
  P <> [] -> Forall payload_byte P -> serialize P = frame_of P.
Proof.
  intros Hne HP. rewrite serialize_frame; rewrite payload_bytes_c_str by exact HP;
    try assumption; [reflexivity|].
  apply payload_bytes_char. exact HP.
Qed.

(** The parity of a frame as [sendPacket] builds it cancels out. *)
Lemma frame_parity_cancels (P : list char) :
  Z.lxor (xor_all START (P ++ [parity_byte P])) END = 0.
Proof.
  rewrite xor_all_app. simpl. unfold parity_byte.
  replace (xor_all START P) with (Z.lxor START (xor_all 0 P)).
  - set (a := Z.lxor START (xor_all 0 P)).
    rewrite <- (Z.lxor_assoc a a END), Z.lxor_nilpotent, Z.lxor_0_l.
    apply Z.lxor_nilpotent.
  - rewrite <- xor_all_shift. reflexivity.
Qed.

(** ** The claims about the codec *)

Ltac payload_bytes :=
  repeat (constructor; [unfold payload_byte, plain, is_char, START, END; lia|]);
  constructor.

(** The framer on a frame as [sendPacket] builds it, for a payload that
    leaves room for the parity byte below the cut-off and collides with no
    framing byte: the payload comes out, with the return code 1. *)
Lemma round_trip_frame (P : list char) (st : framer) (buffer : list char) :
  (1 <= length P)%nat ->
  Z.of_nat (length P) <= MAX_MSG_LEN - 2 ->
  Forall payload_byte P ->
  plain (parity_byte P) ->
  Z.of_nat (length (buf st)) = MAX_MSG_LEN + 1 ->
  Z.of_nat (length buffer) = MAX_MSG_LEN + 1 ->
  exists r,
    readPacket st (frame_of P) buffer = Done r /\
    rcode r = 1 /\ c_str (out_buffer r) = P /\ rx_rest r = [].
Proof.
  intros Hne Hlen HP Hpar Hbuf Hbuffer. unfold frame_of.
  replace (P ++ [parity_byte P; END]) with ((P ++ [parity_byte P]) ++ END :: [])
    by (rewrite <- app_assoc; reflexivity).
  destruct (readPacket_frame st (P ++ [parity_byte P]) [] buffer)
    as (r & Hrun & Hcode & Hrest & Hstr & _); try assumption.
  - apply Forall_app. split; [apply payload_bytes_plain; exact HP|].
    constructor; [exact Hpar|constructor].
  - rewrite length_app. simpl. lia.
  - rewrite length_app. simpl. unfold MAX_MSG_LEN in *. lia.
  - exists r. split; [exact Hrun|]. split; [|split; [|exact Hrest]].
    + rewrite Hcode, frame_parity_cancels. reflexivity.
    + rewrite Hstr, length_app. simpl.
      replace (length P + 1 - 1)%nat with (length P) by lia.
      rewrite take_app_length. apply payload_bytes_c_str. exact HP.
Qed.

(** C1 (amended).  Framing round trip: for every payload P of 1 to
    MAX_MSG_LEN - 2 bytes, none of them null, START or END, whose parity
    byte is neither START nor END, the bytes that [sendPacket] writes for
    P, read by [readPacket] (from any statics, [buf] and the caller's
    block having MAX_MSG_LEN + 1 cells), give the return code 1, leave
    exactly P as the string in the caller's block and leave no byte
    unread. *)
Theorem framing_round_trip (P : list char) (st : framer) (buffer : list char) :
  (1 <= length P)%nat ->
  Z.of_nat (length P) <= MAX_MSG_LEN - 2 ->
  Forall payload_byte P ->
  plain (parity_byte P) ->
  Z.of_nat (length (buf st)) = MAX_MSG_LEN + 1 ->
  Z.of_nat (length buffer) = MAX_MSG_LEN + 1 ->
  exists r,
    readPacket st (serialize P) buffer = Done r /\
    rcode r = 1 /\ c_str (out_buffer r) = P /\ rx_rest r = [].
Proof.
  intros Hne Hlen HP Hpar Hbuf Hbuffer.
  assert (Hwire : serialize P = frame_of P).
  { unfold serialize. rewrite sendPacket_frame.
    - simpl. rewrite payload_bytes_c_str by exact HP. reflexivity.
    - rewrite payload_bytes_c_str by exact HP.
      intros ->. simpl in Hne. lia.
    - rewrite payload_bytes_c_str by exact HP.
      apply payload_bytes_char. exact HP. }
  rewrite Hwire.
  destruct (round_trip_frame P st buffer Hne Hlen HP Hpar Hbuf Hbuffer)
    as (r & Hrun & Hcode & Hstr & Hrest).
  exists r. split; [exact Hrun|]. split; [exact Hcode|].
  split; [exact Hstr|exact Hrest].
Qed.

Lemma framing_round_trip_witness :
  exists r,
    readPacket framer_init (serialize [5; 0x68; 0x69]) stale_block = Done r /\
    rcode r = 1 /\ c_str (out_buffer r) = [5; 0x68; 0x69] /\ rx_rest r = [].
Proof.
  apply (framing_round_trip [5; 0x68; 0x69] framer_init stale_block).
  - simpl. lia.
  - vm_compute. discriminate.
  - payload_bytes.
  - vm_compute. split; discriminate.
  - reflexivity.
  - reflexivity.
Defined.

(** C1 as stated fails.  A payload of MAX_MSG_LEN - 1 bytes, all 1, is
    within the stated bounds and is answered with -1; the two-byte payload
    1, END is within them too and comes out as the empty string. *)
Lemma framing_round_trip_fails :
  (Z.of_nat (length (replicate 15 1)) <= MAX_MSG_LEN /\
   1 <= hd 0 (replicate 15 1) <= 126 /\
   ~ round_trips (replicate 15 1)) /\
  (Z.of_nat (length [1; END]) <= MAX_MSG_LEN /\
   1 <= hd 0 [1; END] <= 126 /\
   ~ round_trips [1; END]).
Proof.
  split; (split; [vm_compute; discriminate|]); (split; [simpl; lia|]);
    intros Hrt; destruct (Hrt stale_block eq_refl) as (r & Hrun & Hcode & Hstr);
    vm_compute in Hrun; injection Hrun as <-.
  - discriminate Hcode.
  - discriminate Hstr.
Qed.

(** C3 (amended).  The parity byte that [sendPacket] writes is the
    exclusive-or of START, all payload bytes and END; and a frame closed
    by END is answered with 1 exactly when
    (START xor payload bytes xor parity byte xor END) & 0x7F is 0, and
    with -1 otherwise: END enters both computations. *)
Theorem parity_includes_END (payload : list char) (parity : char)
  (st : framer) (rx buffer : list char) :
  payload <> [] ->
  Forall payload_byte payload ->
  plain parity ->
  Z.of_nat (length payload) <= MAX_MSG_LEN - 2 ->
  Z.of_nat (length (buf st)) = MAX_MSG_LEN + 1 ->
  Z.of_nat (length buffer) = MAX_MSG_LEN + 1 ->
  serialize payload =
    START :: payload ++ [Z.lxor (Z.lxor START (xor_all 0 payload)) END; END] /\
  exists r,
    readPacket st (START :: payload ++ parity :: END :: rx) buffer = Done r /\
    (rcode r = 1 <->
     Z.land (Z.lxor (xor_all START (payload ++ [parity])) END) 0x7F = 0) /\
    (rcode r = -1 <->
     Z.land (Z.lxor (xor_all START (payload ++ [parity])) END) 0x7F <> 0).
Proof.
  intros Hne HP Hpar Hlen Hbuf Hbuffer. split.
  - apply serialize_payload; assumption.
  - replace (payload ++ parity :: END :: rx)
      with ((payload ++ [parity]) ++ END :: rx)
      by (rewrite <- app_assoc; reflexivity).
    destruct (readPacket_frame st (payload ++ [parity]) rx buffer)
      as (r & Hrun & Hcode & _); try assumption.
    + apply Forall_app. split; [apply payload_bytes_plain; exact HP|].
      constructor; [exact Hpar|constructor].
    + rewrite length_app. simpl. lia.
    + rewrite length_app. simpl. unfold MAX_MSG_LEN in *. lia.
    + exists r. split; [exact Hrun|]. rewrite Hcode.
      destruct (Z.eqb_spec
        (Z.land (Z.lxor (xor_all START (payload ++ [parity])) END) 0x7F) 0)
        as [Hz|Hz]; split; split; intros; try assumption; try reflexivity;
        try discriminate; contradiction.
Qed.

Lemma parity_includes_END_witness :
  serialize [1; 2] = [START; 1; 2; 2; END] /\
  exists r,
    readPacket framer_init [START; 1; 2; 0x81; END] stale_block = Done r /\
    (rcode r = 1 <-> Z.land (Z.lxor (xor_all START [1; 2; 0x81]) END) 0x7F = 0) /\
    (rcode r = -1 <-> Z.land (Z.lxor (xor_all START [1; 2; 0x81]) END) 0x7F <> 0).
Proof.
  apply (parity_includes_END [1; 2] 0x81 framer_init [] stale_block).
  - discriminate.
  - payload_bytes.
  - vm_compute. split; discriminate.
  - vm_compute. discriminate.
  - reflexivity.
  - reflexivity.
Defined.

(** C3 as stated fails.  For the payload 1, 2 the parity byte on the wire
    is 2, not START xor 1 xor 2; and the frame whose parity byte is
    START xor 1 xor 2 = 0x81, for which (START xor payload xor parity) &
    0x7F is 0, is answered with -1. *)
Lemma parity_without_END_fails :
  nth 3 (serialize [1; 2]) 0 <> xor_all START [1; 2] /\
  Z.land (xor_all START [1; 2; 0x81]) 0x7F = 0 /\
  exists r,
    readPacket framer_init [START; 1; 2; 0x81; END] stale_block = Done r /\
    rcode r = -1.
Proof.
  split; [vm_compute; discriminate|]. split; [reflexivity|].
  eexists. split; [vm_compute; reflexivity|reflexivity].
Qed.

(** C7 (amended).  A payload of MAX_MSG_LEN + 1 bytes (none of them null,
    START or END) is written to the wire whole by [sendPacket]; and
    whenever MAX_MSG_LEN bytes have been stored after a START,
    [readPacket] ends the frame there as it does on END: it hands out the
    first MAX_MSG_LEN - 1 of those bytes (the last one is overwritten as
    if it were the parity byte), answers 1 exactly when
    (START xor the MAX_MSG_LEN stored bytes) & 0x7F is 0 and -1 otherwise,
    is idle again, and leaves the bytes that follow unread. *)
Theorem oversized_payload_cut (P body rx : list char) (st : framer)
  (buffer : list char) :
  Z.of_nat (length P) = MAX_MSG_LEN + 1 ->
  Forall payload_byte P ->
  Z.of_nat (length body) = MAX_MSG_LEN ->
  Forall plain body ->
  Z.of_nat (length (buf st)) = MAX_MSG_LEN + 1 ->
  Z.of_nat (length buffer) = MAX_MSG_LEN + 1 ->
  (serialize P = START :: P ++ [parity_byte P; END] /\
   exists r,
     readPacket st (serialize P) buffer = Done r /\
     c_str (out_buffer r) = take (Z.to_nat (MAX_MSG_LEN - 1)) P /\
     rcode r =
       (if Z.land (xor_all START (take (Z.to_nat MAX_MSG_LEN) P)) 0x7F =? 0
        then 1 else -1) /\
     rx_rest r = drop (Z.to_nat MAX_MSG_LEN) P ++ [parity_byte P; END] /\
     in_packet (statics r) = 0 /\ index (statics r) = 0) /\
  (exists r,
     readPacket st (START :: body ++ rx) buffer = Done r /\
     c_str (out_buffer r) = c_str (take (Z.to_nat (MAX_MSG_LEN - 1)) body) /\
     rcode r = (if Z.land (xor_all START body) 0x7F =? 0 then 1 else -1) /\
     rx_rest r = rx /\
     in_packet (statics r) = 0 /\ index (statics r) = 0).
Proof.
  unfold MAX_MSG_LEN. intros HlenP HP Hlenb Hbody Hbuf Hbuffer. split.
  - assert (HneP : P <> []) by (intros ->; simpl in HlenP; lia).
    rewrite serialize_payload by assumption. split; [reflexivity|].
    unfold frame_of.
    replace (P ++ [parity_byte P; END])
      with (take 16 P ++ (drop 16 P ++ [parity_byte P; END]))
      by (rewrite app_assoc, take_drop; reflexivity).
    destruct (readPacket_cut st (take 16 P)
                (drop 16 P ++ [parity_byte P; END]) buffer)
      as (r & Hrun & Hcode & Hrest & Hstr & _ & Hin & Hidx & _);
      try assumption.
    + apply payload_bytes_plain, Forall_take. exact HP.
    + rewrite length_take. unfold MAX_MSG_LEN. lia.
    + exists r. split; [exact Hrun|].
      split; [|split; [exact Hcode|split; [exact Hrest|split; assumption]]].
      rewrite Hstr, length_take, take_take.
      replace (min (16 `min` length P - 1) 16)%nat with 15%nat by lia.
      apply payload_bytes_c_str, Forall_take. exact HP.
  - destruct (readPacket_cut st body rx buffer)
      as (r & Hrun & Hcode & Hrest & Hstr & _ & Hin & Hidx & _);
      try assumption.
    exists r. split; [exact Hrun|].
    split; [|split; [exact Hcode|split; [exact Hrest|split; assumption]]].
    rewrite Hstr. do 2 f_equal. lia.
Qed.

Lemma oversized_payload_cut_witness :
  (serialize (seqZ 1 17) = START :: seqZ 1 17 ++ [parity_byte (seqZ 1 17); END] /\
   exists r,
     readPacket framer_init (serialize (seqZ 1 17)) stale_block = Done r /\
     c_str (out_buffer r) = take (Z.to_nat (MAX_MSG_LEN - 1)) (seqZ 1 17) /\
     rcode r =
       (if Z.land (xor_all START (take (Z.to_nat MAX_MSG_LEN) (seqZ 1 17))) 0x7F =? 0
        then 1 else -1) /\
     rx_rest r = drop (Z.to_nat MAX_MSG_LEN) (seqZ 1 17) ++ [parity_byte (seqZ 1 17); END] /\
     in_packet (statics r) = 0 /\ index (statics r) = 0) /\
  (exists r,
     readPacket framer_init (START :: seqZ 1 16 ++ [END]) stale_block = Done r /\
     c_str (out_buffer r) = c_str (take (Z.to_nat (MAX_MSG_LEN - 1)) (seqZ 1 16)) /\
     rcode r = (if Z.land (xor_all START (seqZ 1 16)) 0x7F =? 0 then 1 else -1) /\
     rx_rest r = [END] /\
     in_packet (statics r) = 0 /\ index (statics r) = 0).
Proof.
  apply (oversized_payload_cut (seqZ 1 17) (seqZ 1 16) [END] framer_init stale_block).
  - reflexivity.
  - vm_compute seqZ. payload_bytes.
  - reflexivity.
  - vm_compute seqZ. payload_bytes.
  - reflexivity.
  - reflexivity.
Defined.

(** C7 as stated fails.  For the payload 1, 2, ..., 17 the string handed
    out has MAX_MSG_LEN - 1 bytes, not MAX_MSG_LEN, and the answer is -1:
    the parity byte written by the sender (over all 17 bytes) is never
    read, the sixteenth payload byte is taken in its place. *)
Lemma oversized_payload_not_MAX_MSG_LEN :
  Z.of_nat (length (seqZ 1 17)) = MAX_MSG_LEN + 1 /\
  exists r,
    readPacket framer_init (serialize (seqZ 1 17)) stale_block = Done r /\
    c_str (out_buffer r) <> take (Z.to_nat MAX_MSG_LEN) (seqZ 1 17) /\
    Z.of_nat (length (c_str (out_buffer r))) = MAX_MSG_LEN - 1 /\
    rcode r = -1 /\
    rx_rest r = [17; parity_byte (seqZ 1 17); END].
Proof.
  split; [reflexivity|]. eexists. split; [vm_compute; reflexivity|].
  split; [vm_compute; discriminate|]. repeat split; reflexivity.
Qed.

(** C9.  [readPacket] keeps its write index in range only as long as no
    END comes directly after a START.  From statics whose index is in
    0 .. MAX_MSG_LEN - 1, on an input in which every END that follows a
    START is separated from it by at least one byte, a call returns
    without a store outside [buf] and leaves the index in that range; a
    call that does store outside a block does so at index -1 and has been
    given an END directly after a START; and on START directly followed
    by END the index goes from 0 to -1 and the terminator is stored at
    index -1, outside the block. *)
Theorem readPacket_index_range (st : framer) (rx buffer : list char) :
  (framer_ok st ->
   Z.of_nat (length buffer) = MAX_MSG_LEN + 1 ->
   no_empty_frame (just_started st) rx = true ->
   exists r,
     readPacket st rx buffer = Done r /\
     0 <= index (statics r) < MAX_MSG_LEN /\
     Z.of_nat (length (buf (statics r))) = MAX_MSG_LEN + 1) /\
  (framer_ok st ->
   Z.of_nat (length buffer) = MAX_MSG_LEN + 1 ->
   forall i,
     readPacket st rx buffer = OutOfBounds i ->
     i = -1 /\ no_empty_frame (just_started st) rx = false) /\
  readPacket st (START :: END :: rx) buffer = OutOfBounds (-1).
Proof.
  split; [|split].
  - intros Hok Hbuffer Hne.
    destruct (readPacket_in_bounds rx st buffer Hok Hbuffer Hne) as (r & Hrun & Hr).
    exists r. split; [exact Hrun|exact Hr].
  - intros Hok Hbuffer i Hrun. split.
    + eapply readPacket_fault_index; eassumption.
    + destruct (no_empty_frame (just_started st) rx) eqn:Hne; [|reflexivity].
      destruct (readPacket_in_bounds rx st buffer Hok Hbuffer Hne) as (r & Hdone & _).
      rewrite Hdone in Hrun. discriminate Hrun.
  - rewrite readPacket_START, readPacket_END by reflexivity.
    apply terminate_frame_empty. reflexivity.
Qed.

Lemma readPacket_index_range_witness :
  (exists r,
     readPacket framer_init [START; 7; END; START; 8; 9] stale_block = Done r /\
     0 <= index (statics r) < MAX_MSG_LEN /\
     Z.of_nat (length (buf (statics r))) = MAX_MSG_LEN + 1) /\
  (-1 = -1 /\
   no_empty_frame (just_started framer_init) [5; START; END; 6] = false) /\
  readPacket framer_init [START; END; START; 7; END; START; 8; 9] stale_block
    = OutOfBounds (-1).
Proof.
  split; [|split].
  - apply (proj1 (readPacket_index_range framer_init
                    [START; 7; END; START; 8; 9] stale_block)).
    + vm_compute. repeat split; discriminate.
    + reflexivity.
    + reflexivity.
  - apply (proj1 (proj2 (readPacket_index_range framer_init
                           [5; START; END; 6] stale_block))).
    + vm_compute. repeat split; discriminate.
    + reflexivity.
    + reflexivity.
  - apply (proj2 (proj2 (readPacket_index_range framer_init
                           [START; 7; END; START; 8; 9] stale_block))).
Defined.

(** ** The round trip, exactly *)

Lemma Forall_c_str (Q : char -> Prop) (l : list char) :
  Forall Q l -> Forall Q (c_str l).
Proof.
  induction 1 as [|c l Hc Hl IH]; simpl; [constructor|].
  destruct (c =? 0); constructor; assumption.
Qed.

(** What a frame end that returns has done. *)
Lemma terminate_frame_inv (st : framer) (rx buffer : list char) (r : read_result) :
  terminate_frame st rx buffer = Done r ->
  1 <= index st <= Z.of_nat (length (buf st)) /\
  c_str (out_buffer r) = c_str (take (Z.to_nat (index st - 1)) (buf st)).
Proof.
  unfold terminate_frame, store. intros Hrun.
  destruct (Z.leb_spec 0 (index st - 1)); [|discriminate].
  destruct (Z.ltb_spec (index st - 1) (Z.of_nat (length (buf st)))); [|discriminate].
  cbn [andb obind] in Hrun.
  unfold strcpy in Hrun. simpl Z.to_nat in Hrun. simpl take in Hrun.
  match type of Hrun with context [if ?b then _ else _] => destruct b end;
    [|discriminate].
  cbn [obind] in Hrun. injection Hrun as <-. simpl out_buffer.
  split; [lia|]. simpl. rewrite <- app_assoc. simpl. rewrite c_str_app_nul.
  rewrite (c_str_fixed (c_str _)) by apply c_str_no_nul.
  apply c_str_insert_nul. lia.
Qed.

(** The string handed out is made of bytes that were read from the
    receive buffer and stored, so none of them is START or END. *)
Lemma readPacket_string_stored (Q : char -> Prop) (rx : list char) :
  forall (st : framer) (buffer : list char) (r : read_result),
    readPacket st rx buffer = Done r -> rcode r <> 0 ->
    Forall Q rx ->
    0 <= index st ->
    (in_packet st = 1 ->
     Forall (fun c => Q c /\ plain c) (take (Z.to_nat (index st)) (buf st))) ->
    Forall (fun c => Q c /\ plain c) (c_str (out_buffer r)).
Proof.
  induction rx as [|c rx IH]; intros st buffer r Hrun Hcode HQ Hidx Hpre.
  - simpl in Hrun. injection Hrun as <-. contradiction.
  - apply Forall_cons in HQ as [Hc HQ]. simpl in Hrun.
    destruct (Z.eqb_spec c START) as [->|Hs].
    { eapply IH; try eassumption; simpl; [lia|]. intros _. constructor. }
    destruct (Z.eqb_spec (in_packet st) 1) as [Hin|Hin];
      [|eapply IH; try eassumption; intros; contradiction].
    specialize (Hpre Hin).
    destruct (Z.eqb_spec c END) as [->|He]; cbn [negb obind orb] in Hrun.
    + apply terminate_frame_inv in Hrun as [Hrange ->]. simpl in *.
      apply Forall_c_str.
      replace (Z.to_nat (index st - 1)) with (min (Z.to_nat (index st - 1)) (Z.to_nat (index st)))
        by lia.
      rewrite <- take_take. apply Forall_take. exact Hpre.
    + unfold store in Hrun.
      destruct (Z.leb_spec 0 (index st)); [|lia].
      destruct (Z.ltb_spec (index st) (Z.of_nat (length (buf st))));
        [|discriminate].
      cbn [andb obind index] in Hrun.
      assert (Hnew : Forall (fun c0 => Q c0 /\ plain c0)
                (take (Z.to_nat (index st + 1))
                   (<[Z.to_nat (index st) := c]> (buf st)))).
      { replace (Z.to_nat (index st + 1)) with (S (Z.to_nat (index st))) by lia.
        rewrite (take_S_r _ _ c) by (apply list_lookup_insert_eq; lia).
        rewrite take_insert_ge by lia.
        apply Forall_app. split; [exact Hpre|].
        constructor; [|constructor]. split; [exact Hc|split; assumption]. }
      destruct (MAX_MSG_LEN <=? index st + 1).
      * apply terminate_frame_inv in Hrun as [Hrange ->]. simpl in *.
        apply Forall_c_str.
        replace (Z.to_nat (index st + 1 - 1))
          with (min (Z.to_nat (index st)) (Z.to_nat (index st + 1))) by lia.
        rewrite <- take_take. apply Forall_take. exact Hnew.
      * eapply IH; try eassumption; simpl; [lia|]. intros _. exact Hnew.
Qed.

Section SerializerBytes.
Context {E : Type} `{Bus E}.

(** Every byte [sendPacket] writes has been narrowed to 8 bits. *)
Lemma sendPacket_bytes_char (message : list char) (w : wire E) :
  Forall (fun t => Forall is_char (snd t)) (sent w) ->
  Forall (fun t => Forall is_char (snd t)) (sent (snd (sendPacket message w))).
Proof.
  intros Hw. unfold sendPacket.
  destruct (strlen message =? 0); [exact Hw|].
  rewrite Wire_write_all. simpl.
  apply Forall_app. split; [exact Hw|]. constructor; [|constructor]. simpl.
  constructor; [apply to_char_is_char|].
  rewrite <- app_assoc. apply Forall_app. split.
  - apply Forall_forall. intros x Hx. apply list_elem_of_In, in_map_iff in Hx.
    destruct Hx as (y & <- & _). apply to_char_is_char.
  - repeat constructor; apply to_char_is_char.
Qed.

End SerializerBytes.

Lemma serialize_bytes_char (message : list char) : Forall is_char (serialize message).
Proof.
  unfold serialize.
  pose proof (sendPacket_bytes_char message wire0 ltac:(constructor)) as Hall.
  destruct (sent (snd (sendPacket message wire0))) as [|[a frame] rest];
    [constructor|].
  apply Forall_cons in Hall as [Hframe _]. exact Hframe.
Qed.

Lemma xor_all_frame_END (P : list char) :
  xor_all START (P ++ [parity_byte P]) = END.
Proof. apply Z.lxor_eq, frame_parity_cancels. Qed.

(** The payloads that make the round trip are exactly those of 1 to
    MAX_MSG_LEN - 2 bytes, none of them null, START or END, whose parity
    byte is neither START nor END. *)
Theorem round_trips_exactly (P : list char) :
  round_trips P <->
  (1 <= length P)%nat /\ Z.of_nat (length P) <= MAX_MSG_LEN - 2 /\
  Forall payload_byte P /\ plain (parity_byte P).
Proof.
  split.
  - intros Hrt. destruct (Hrt stale_block eq_refl) as (r & Hrun & Hcode & Hstr).
    assert (Hne : c_str P <> []).
    { intros Hemp. unfold serialize in Hrun.
      rewrite sendPacket_empty in Hrun by exact Hemp.
      simpl in Hrun. injection Hrun as <-. discriminate Hcode. }
    assert (HP : Forall payload_byte P).
    { assert (Hst : Forall (fun c => is_char c /\ plain c) (c_str (out_buffer r))).
      { eapply (readPacket_string_stored is_char); [exact Hrun|lia| | |].
        - apply serialize_bytes_char.
        - simpl. lia.
        - intros Hin. discriminate Hin. }
      pose proof (c_str_no_nul (out_buffer r)) as Hnn.
      rewrite Hstr in Hst, Hnn. rewrite Forall_forall in Hst, Hnn.
      apply Forall_forall. intros x Hx.
      destruct (Hst x Hx) as (Hc & Hs & He). specialize (Hnn x Hx).
      exact (conj Hc (conj Hnn (conj Hs He))). }
    assert (HneP : P <> []) by (intros ->; apply Hne; reflexivity).
    assert (Hlen1 : (1 <= length P)%nat)
      by (destruct P; [contradiction|simpl; lia]).
    rewrite serialize_payload in Hrun by assumption. unfold frame_of in Hrun.
    pose proof (payload_bytes_plain P HP) as Hplain.
    pose proof (payload_bytes_c_str P HP) as HcP.
    assert (Hshort : forall k, (k < length P)%nat -> c_str (take k P) <> P).
    { intros k Hk Heq. pose proof (c_str_length_le (take k P)) as Hle.
      rewrite Heq, length_take in Hle. lia. }
    unfold MAX_MSG_LEN.
    destruct (Z_le_gt_dec 16 (Z.of_nat (length P))) as [Hlong|Hfits].
    { (* the cut-off comes before the end of the payload *)
      exfalso.
      replace (P ++ [parity_byte P; END])
        with (take 16 P ++ (drop 16 P ++ [parity_byte P; END])) in Hrun
        by (rewrite app_assoc, take_drop; reflexivity).
      destruct (readPacket_cut framer_init (take 16 P)
                  (drop 16 P ++ [parity_byte P; END]) stale_block)
        as (r' & Hrun' & _ & _ & Hstr' & _);
        [apply Forall_take; exact Hplain
        |rewrite length_take; unfold MAX_MSG_LEN; lia
        |reflexivity|reflexivity|].
      rewrite Hrun' in Hrun. injection Hrun as ->.
      rewrite take_take, length_take in Hstr'.
      apply (Hshort (min (min 16 (length P) - 1) 16)); [lia|].
      rewrite <- Hstr'. exact Hstr. }
    destruct (Z.eq_dec (parity_byte P) START) as [HpS|HpS].
    { (* the parity byte restarts the frame, END then finds it empty *)
      exfalso. rewrite HpS in Hrun.
      rewrite readPacket_START in Hrun.
      rewrite readPacket_absorb in Hrun
        by (try assumption; try reflexivity; simpl; unfold MAX_MSG_LEN; lia).
      rewrite readPacket_START, readPacket_END in Hrun by reflexivity.
      rewrite terminate_frame_empty in Hrun by reflexivity.
      discriminate Hrun. }
    destruct (Z.eq_dec (parity_byte P) END) as [HpE|HpE].
    { (* the parity byte ends the frame, the last payload byte is dropped *)
      exfalso. rewrite HpE in Hrun.
      destruct (readPacket_frame framer_init P [END] stale_block)
        as (r' & Hrun' & _ & _ & Hstr' & _);
        [exact Hplain|exact Hlen1|unfold MAX_MSG_LEN; lia
        |reflexivity|reflexivity|].
      rewrite Hrun' in Hrun. injection Hrun as ->.
      apply (Hshort (length P - 1)%nat); [lia|].
      rewrite <- Hstr'. exact Hstr. }
    assert (Hpar : plain (parity_byte P)) by (split; assumption).
    destruct (Z.eq_dec (Z.of_nat (length P)) 15) as [H15|H15].
    { (* the cut-off comes on the parity byte, before END *)
      exfalso.
      replace (P ++ [parity_byte P; END])
        with ((P ++ [parity_byte P]) ++ [END]) in Hrun
        by (rewrite <- app_assoc; reflexivity).
      destruct (readPacket_cut framer_init (P ++ [parity_byte P]) [END] stale_block)
        as (r' & Hrun' & Hcode' & _);
        [apply Forall_app; split; [exact Hplain|constructor; [exact Hpar|constructor]]
        |rewrite length_app; simpl; unfold MAX_MSG_LEN; lia
        |reflexivity|reflexivity|].
      rewrite Hrun' in Hrun. injection Hrun as ->.
      rewrite xor_all_frame_END, Hcode in Hcode'. discriminate Hcode'. }
    repeat split; try assumption; try lia; apply Hpar.
  - intros (Hlen1 & Hlen & HP & Hpar) buffer Hbuffer.
    rewrite serialize_payload
      by (try assumption; intros ->; simpl in Hlen1; lia).
    destruct (round_trip_frame P framer_init buffer)
      as (r & Hrun & Hcode & Hstr & _); try assumption; [reflexivity|].
    exists r. repeat split; assumption.
Qed.

(** ** Seven-bit payloads *)





(** [strcpy(new_message + 1, data); new_message[0] = c;] on a fresh block:
    the block then holds the string [c] followed by [data]. *)
Lemma wrap_message (block data : list char) (c : char) :
  Z.of_nat (length block) = MAX_MSG_LEN + 1 ->
  strlen data < MAX_MSG_LEN ->
  c <> 0 ->
  exists m2,
    (do m1 <- strcpy block 1 data; store m1 0 c) = Done m2 /\
    c_str m2 = c :: c_str data /\ load m2 0 = c /\
    length m2 = length block.
Proof.
  unfold MAX_MSG_LEN, strlen. intros Hblock Hdata Hc.
  unfold strcpy. rewrite length_app. simpl length.
  destruct (Z.leb_spec (Z.of_nat (Z.to_nat 1 + (length (c_str data) + 1)))
              (Z.of_nat (length block))); [|lia].
  cbn [obind]. destruct block as [|b0 block]; [simpl in Hblock; lia|].
  change (Z.to_nat 1) with 1%nat. simpl take.
  rewrite store_in_range by (simpl; lia).
  eexists. split; [reflexivity|]. simpl.
  destruct (Z.eqb_spec c 0); [contradiction|].
  split; [|split].
  - f_equal. rewrite <- app_assoc. simpl. rewrite c_str_app_nul.
    apply c_str_fixed, c_str_no_nul.
  - reflexivity.
  - rewrite !length_app, length_drop. simpl in *. lia.
Qed.

(** ** The client responder *)

Lemma terminate_frame_rcode (st : framer) (rx buffer : list char) (r : read_result) :
  terminate_frame st rx buffer = Done r -> rcode r = 1 \/ rcode r = -1.
Proof.
  unfold terminate_frame. intros Hrun.
  destruct (store (buf st) (index st - 1) 0) as [b|]; [|discriminate].
  cbn [obind] in Hrun.
  destruct (strcpy buffer 0 b) as [out|]; [|discriminate].
  cbn [obind] in Hrun. injection Hrun as <-. simpl.
  destruct (Z.land (data_parity st) 127 =? 0); [left|right]; reflexivity.
Qed.

(** A call that returns 0 has not written to the caller's block and has
    read the whole receive buffer. *)
Lemma readPacket_no_packet (rx : list char) :
  forall (st : framer) (buffer : list char) (r : read_result),
    readPacket st rx buffer = Done r -> rcode r = 0 ->
    out_buffer r = buffer /\ rx_rest r = [].
Proof.
  induction rx as [|c rx IH]; intros st buffer r Hrun Hcode.
  - simpl in Hrun. injection Hrun as <-. split; reflexivity.
  - simpl in Hrun. destruct (c =? START); [eapply IH; eassumption|].
    destruct (in_packet st =? 1); [|eapply IH; eassumption].
    match type of Hrun with (do st1 <- ?s; _) = _ => destruct s as [st1|] end;
      [|discriminate].
    cbn [obind] in Hrun.
    destruct ((c =? END) || (MAX_MSG_LEN <=? index st1)).
    + apply terminate_frame_rcode in Hrun. lia.
    + eapply IH; eassumption.
Qed.

Lemma load_c_str_1 (l : list char) (a b : char) (t : list char) :
  c_str l = a :: b :: t -> load l 1 = b.
Proof.
  destruct l as [|x [|y l]]; simpl; try discriminate.
  - destruct (x =? 0); discriminate.
  - destruct (x =? 0); [discriminate|]. destruct (y =? 0); [discriminate|].
    intros Heq. injection Heq as _ -> _. reflexivity.
Qed.

(** C6.  After every request event [currentCommand] is NO_DATA, whatever
    it was before.  With PING pending, two request events in a row answer
    ACK, then NO_DATA; and PING is pending once the client has received
    the frame [sendPacket] writes for a PING addressed to a client number
    in 1 .. MAX_CLIENTS. *)
Theorem requestEvent_single_shot (c : client) (id : Z) (block : list char) :
  currentCommand (snd (requestEvent c)) = NO_DATA /\
  (currentCommand c = PING ->
   fst (requestEvent c) = [ACK] /\
   fst (requestEvent (snd (requestEvent c))) = [NO_DATA]) /\
  (1 <= id <= MAX_CLIENTS ->
   Z.of_nat (length (buf (rp_statics c))) = MAX_MSG_LEN + 1 ->
   Z.of_nat (length block) = MAX_MSG_LEN + 1 ->
   exists c1,
     deliver (serialize [id; PING; 0]) (Some block) c = Done c1 /\
     currentCommand c1 = PING /\
     fst (requestEvent c1) = [ACK] /\
     fst (requestEvent (snd (requestEvent c1))) = [NO_DATA]).
Proof.
  assert (Hreset : forall c0, currentCommand (snd (requestEvent c0)) = NO_DATA).
  { intros c0. unfold requestEvent.
    destruct (currentCommand c0 =? NO_DATA); [reflexivity|].
    destruct (negb (currentCommand c0 =? READ)); [reflexivity|].
    destruct (stringQueueIsEmpty (_out_messages c0)); [reflexivity|].
    destruct (stringQueueRemove (_out_messages c0)) as [[message|] q]; reflexivity. }
  assert (Hping : forall c0, currentCommand c0 = PING ->
            fst (requestEvent c0) = [ACK] /\
            fst (requestEvent (snd (requestEvent c0))) = [NO_DATA]).
  { intros c0 Hc0. split.
    - unfold requestEvent. rewrite Hc0. reflexivity.
    - specialize (Hreset c0). revert Hreset.
      generalize (snd (requestEvent c0)). intros c1 Hc1.
      unfold requestEvent. rewrite Hc1. reflexivity. }
  split; [apply Hreset|]. split; [apply Hping|].
  intros Hid Hbuf Hblock.
  assert (Hser : serialize [id; PING; 0] = frame_of [id; PING]).
  { rewrite serialize_frame; simpl; destruct (Z.eqb_spec id 0); try lia;
      [reflexivity|discriminate|].
    repeat constructor; unfold is_char, PING, MAX_CLIENTS in *; lia. }
  unfold MAX_CLIENTS in Hid.
  assert (Hpar : plain (parity_byte [id; PING])).
  { assert (Hcases : id = 1 \/ id = 2 \/ id = 3 \/ id = 4 \/ id = 5 \/ id = 6 \/
                     id = 7 \/ id = 8 \/ id = 9 \/ id = 10 \/ id = 11 \/ id = 12 \/
                     id = 13 \/ id = 14 \/ id = 15 \/ id = 16) by lia.
    repeat (destruct Hcases as [->|Hcases]; [vm_compute; split; discriminate|]).
    subst id. vm_compute. split; discriminate. }
  destruct (readPacket_frame (rp_statics c) ([id; PING] ++ [parity_byte [id; PING]])
              [] block) as (r & Hrun & _ & _ & Hstr & _); try assumption.
  { constructor; [unfold plain, START, END; lia|].
    constructor; [unfold plain, START, END, PING; lia|].
    constructor; [exact Hpar|constructor]. }
  { simpl. lia. }
  { simpl. unfold MAX_MSG_LEN. lia. }
  simpl in Hstr. simpl app in Hrun.
  destruct (Z.eqb_spec id 0); [lia|]. simpl in Hstr.
  unfold deliver, receiveEvent. cbn [rp_statics wire_rx].
  rewrite Hser. unfold frame_of. simpl app. rewrite Hrun. cbn [obind].
  rewrite (load_c_str_1 _ _ _ _ Hstr). simpl.
  eexists. split; [reflexivity|]. split; [reflexivity|].
  apply Hping. reflexivity.
Qed.

Lemma requestEvent_single_shot_witness :
  currentCommand (snd (requestEvent (SWireClient 5))) = NO_DATA /\
  (fst (requestEvent
     (Client (stringQueueInit MAX_CLIENT_QUEUE_SIZE)
        (stringQueueInit MAX_CLIENT_QUEUE_SIZE) PING false framer_init [] 5))
   = [ACK] /\
   fst (requestEvent (snd (requestEvent
     (Client (stringQueueInit MAX_CLIENT_QUEUE_SIZE)
        (stringQueueInit MAX_CLIENT_QUEUE_SIZE) PING false framer_init [] 5))))
   = [NO_DATA]) /\
  exists c1,
    deliver (serialize [5; PING; 0]) (Some stale_block) (SWireClient 5) = Done c1 /\
    currentCommand c1 = PING /\
    fst (requestEvent c1) = [ACK] /\
    fst (requestEvent (snd (requestEvent c1))) = [NO_DATA].
Proof.
  split; [|split].
  - apply (proj1 (requestEvent_single_shot (SWireClient 5) 5 stale_block)).
  - apply (proj1 (proj2 (requestEvent_single_shot
      (Client (stringQueueInit MAX_CLIENT_QUEUE_SIZE)
         (stringQueueInit MAX_CLIENT_QUEUE_SIZE) PING false framer_init [] 5)
      5 stale_block))).
    reflexivity.
  - apply (proj2 (proj2 (requestEvent_single_shot (SWireClient 5) 5 stale_block))).
    + vm_compute. split; discriminate.
    + reflexivity.
    + reflexivity.
Defined.

(** C10.  When [readPacket] returns 0 the caller's block is as [malloc]
    returned it, and [receiveEvent] still takes cell 1 of that block as
    [currentCommand] and decides on it whether the block goes onto the
    inbound queue: both are driven by whatever the fresh block held. *)
Theorem receiveEvent_reads_unwritten_block (c : client) (block : list char)
  (r : read_result) :
  readPacket (rp_statics c) (wire_rx c) block = Done r ->
  rcode r = 0 ->
  out_buffer r = block /\
  exists c',
    receiveEvent (Some block) c = Done c' /\
    currentCommand c' = load block 1 /\
    _in_messages c' =
      (if negb (load block 1 =? PING) && negb (load block 1 =? READ)
          && negb (load block 1 =? NO_DATA)
       then snd (stringQueueAdd (_in_messages c) block)
       else _in_messages c).
Proof.
  intros Hrun Hcode.
  destruct (readPacket_no_packet _ _ _ _ Hrun Hcode) as [Hout _].
  split; [exact Hout|].
  unfold receiveEvent. rewrite Hrun. cbn [obind]. rewrite Hout.
  eexists. split; [reflexivity|]. split; reflexivity.
Qed.

Lemma receiveEvent_reads_unwritten_block_witness :
  exists c',
    deliver [START; 5] (Some stale_block) (SWireClient 5) = Done c' /\
    currentCommand c' = 0xAA /\
    entries (_in_messages c') = [stale_block].
Proof.
  destruct (receiveEvent_reads_unwritten_block
              (Client (stringQueueInit MAX_CLIENT_QUEUE_SIZE)
                 (stringQueueInit MAX_CLIENT_QUEUE_SIZE) NO_DATA false
                 framer_init [START; 5] 5)
              stale_block
              (ReadResult 0 (absorb (started framer_init) [5]) [] stale_block))
    as (_ & c' & Hrun & Hcmd & Hq).
  - reflexivity.
  - reflexivity.
  - exists c'. split; [exact Hrun|]. split; [exact Hcmd|].
    rewrite Hq. reflexivity.
Defined.

(** A frame closed by END is handled by [receiveEvent] in the same way
    whatever its parity byte: the second byte of the message becomes
    [currentCommand], and unless it is PING, READ or NO_DATA the block
    holding the message is handed to the inbound queue. *)
Lemma receiveEvent_any_parity (c : client) (a cmd parity : char)
  (rest block : list char) :
  Forall payload_byte (a :: cmd :: rest) ->
  plain parity ->
  Z.of_nat (length rest) + 3 < MAX_MSG_LEN ->
  Z.of_nat (length (buf (rp_statics c))) = MAX_MSG_LEN + 1 ->
  Z.of_nat (length block) = MAX_MSG_LEN + 1 ->
  exists m c',
    deliver (START :: (a :: cmd :: rest) ++ [parity; END]) (Some block) c
      = Done c' /\
    c_str m = a :: cmd :: rest /\
    currentCommand c' = cmd /\
    _in_messages c' =
      (if negb (cmd =? PING) && negb (cmd =? READ) && negb (cmd =? NO_DATA)
       then snd (stringQueueAdd (_in_messages c) m)
       else _in_messages c).
Proof.
  intros HP Hpar Hlen Hbuf Hblock.
  replace ((a :: cmd :: rest) ++ [parity; END])
    with (((a :: cmd :: rest) ++ [parity]) ++ END :: [])
    by (rewrite <- app_assoc; reflexivity).
  destruct (readPacket_frame (rp_statics c) ((a :: cmd :: rest) ++ [parity])
              [] block) as (r & Hrun & _ & _ & Hstr & _); try assumption.
  - apply Forall_app. split; [apply payload_bytes_plain; exact HP|].
    constructor; [exact Hpar|constructor].
  - rewrite length_app. simpl. lia.
  - rewrite length_app. simpl length. unfold MAX_MSG_LEN in *. lia.
  - rewrite length_app in Hstr. simpl length in Hstr.
    replace (S (S (length rest)) + 1 - 1)%nat
      with (length (a :: cmd :: rest)) in Hstr by (simpl; lia).
    rewrite take_app_length, (payload_bytes_c_str _ HP) in Hstr.
    unfold deliver, receiveEvent. cbn [rp_statics wire_rx].
    rewrite Hrun. cbn [obind]. rewrite (load_c_str_1 _ _ _ _ Hstr).
    exists (out_buffer r). eexists. split; [reflexivity|].
    split; [exact Hstr|]. split; reflexivity.
Qed.

(** C2, on the code.  A frame whose parity check fails is not dropped:
    [receiveEvent] does not look at the answer of [readPacket].  The
    frame START 5 'h' 'i' 6 END (the parity byte should be 5) is answered
    with -1 by [readPacket], and still [currentCommand] becomes 'h' and
    the block holding 5 'h' 'i' is put onto the inbound queue. *)
Theorem receiveEvent_keeps_invalid_frame :
  (exists r,
     readPacket framer_init [START; 5; 0x68; 0x69; 6; END] stale_block = Done r /\
     rcode r = -1) /\
  exists c',
    deliver [START; 5; 0x68; 0x69; 6; END] (Some stale_block) (SWireClient 5)
      = Done c' /\
    currentCommand c' = 0x68 /\
    map c_str (entries (_in_messages c')) = [[5; 0x68; 0x69]].
Proof.
  split.
  - eexists. split; [vm_compute; reflexivity|reflexivity].
  - eexists. split; [vm_compute; reflexivity|]. split; reflexivity.
Qed.


(** A failed allocation is reported: 0, and the client is as before. *)
Lemma client_sendData_alloc_failed (c : client) (data : list char) :
  SWireClient_sendData None data c = Done (0, c).
Proof. reflexivity. Qed.

(** C5, on the code.  [SWireClient::sendData] answers 1 whenever the
    allocation succeeded and the string fits the block, whatever
    [stringQueueAdd] answers.  After twenty calls the outbound queue of a
    client is full; the next call still answers 1 and leaves the queue as
    it was, so the message is lost. *)
Theorem client_sendData_ignores_full_queue :
  (forall (c : client) (data block : list char),
     match SWireClient_sendData (Some block) data c with
     | Done (ret, _) => ret = 1
     | OutOfBounds _ => True
     end) /\
  exists c20,
    send_many 20 (SWireClient 5) = Done c20 /\
    stringQueueIsFull (_out_messages c20) = true /\
    fst (stringQueueAdd (_out_messages c20) stale_block) = false /\
    SWireClient_sendData (Some stale_block) [0x68; 0x69] c20 = Done (1, c20).
Proof.
  split.
  - intros c data block. unfold SWireClient_sendData.
    destruct (strcpy block 1 data) as [m1|]; [|exact I].
    cbn [obind].
    destruct (store m1 0 (_client_number c)) as [m2|]; [|exact I].
    reflexivity.
  - eexists. split; [vm_compute; reflexivity|].
    repeat split; vm_compute; reflexivity.
Qed.

(** ** The master controller *)

Section MasterFacts.
Context {E : Type} `{Bus E}.

(** C8.  [SWireMaster::sendData(client_id, data)], for a client number in
    1 .. 255 and a string that fits the block, once the allocation has
    succeeded: one frame is written to the bus at once, addressed to
    [client_id] and carrying [client_id] followed by [data]; the inbound
    queue of the master is untouched and nothing else is kept for later;
    then one byte is requested from [client_id], and the answer is 1
    exactly when that request obtained a byte, 0 exactly when it obtained
    none. *)
Theorem master_sendData_immediate (client_id : Z) (data block : list char)
  (m : master E) :
  1 <= client_id < 256 ->
  Forall is_char (c_str data) ->
  strlen data < MAX_MSG_LEN ->
  Z.of_nat (length block) = MAX_MSG_LEN + 1 ->
  exists ret m',
    SWireMaster_sendData (Some block) client_id data m = Done (ret, m') /\
    sent (bus m') =
      sent (bus m) ++ [(client_id, frame_of (client_id :: c_str data))] /\
    master_in_messages m' = master_in_messages m /\
    _clients m' = _clients m /\ _num_clients m' = _num_clients m /\
    rxBuffer (bus m') =
      take 1 (fst (bus_request
                     (bus_frame (peers (bus m)) client_id
                        (frame_of (client_id :: c_str data)))
                     client_id 1)) /\
    (ret = 1 <-> rxBuffer (bus m') <> []) /\
    (ret = 0 <-> rxBuffer (bus m') = []).
Proof.
  intros Hid Hchars Hlen Hblock.
  assert (Hchar : is_char client_id) by (unfold is_char; lia).
  assert (Hc : to_char client_id = client_id) by (apply to_char_id; exact Hchar).
  destruct (wrap_message block data client_id Hblock Hlen) as (m2 & Hwrap & Hstr & Hload & _);
    [lia|].
  unfold SWireMaster_sendData. rewrite Hc.
  change (do m1 <- strcpy block 1 data; do m0 <- store m1 0 client_id; ?k m0)
    with (do m0 <- (do m1 <- strcpy block 1 data; store m1 0 client_id); k m0).
  destruct (strcpy block 1 data) as [m1|]; [|discriminate].
  cbn [obind] in Hwrap |- *. rewrite Hwrap. cbn [obind].
  rewrite sendPacket_frame;
    [|rewrite Hstr; discriminate
     |rewrite Hstr; constructor; [exact Hchar|exact Hchars]].
  rewrite Hstr, Hload, Hc. cbn [snd].
  unfold Wire_requestFrom. cbn [peers].
  destruct (bus_request _ client_id 1) as [reply e] eqn:Hreq.
  cbn [fst]. change (Z.to_nat 1) with 1%nat.
  destruct (take 1 reply) as [|b rest] eqn:Htake.
  - exists 0, (Master (_num_clients m) (_clients m) (master_in_messages m)
                 (Wire client_id [] []
                    (sent (bus m) ++ [(client_id, frame_of (client_id :: c_str data))]) e)).
    simpl. repeat split; try reflexivity; try discriminate; try contradiction.
  - exists 1, (Master (_num_clients m) (_clients m) (master_in_messages m)
                 (Wire client_id [] (b :: rest)
                    (sent (bus m) ++ [(client_id, frame_of (client_id :: c_str data))]) e)).
    cbn [length]. replace (Z.of_nat (S (length rest)) =? 0) with false
      by (symmetry; apply Z.eqb_neq; lia).
    simpl. repeat split; try reflexivity; try discriminate; intros; discriminate.
Qed.

(** A failed allocation: 0, nothing is written and nothing is requested. *)
Lemma master_sendData_alloc_failed (client_id : Z) (data : list char) (m : master E) :
  SWireMaster_sendData None client_id data m = Done (0, m).
Proof. reflexivity. Qed.

(** The reserved client number 0 is the string terminator: the message is
    empty, [sendPacket] refuses it and nothing is written; the request
    for one byte is made all the same. *)
Lemma master_sendData_reserved_id (data block : list char) (m : master E) :
  Z.of_nat (length block) = MAX_MSG_LEN + 1 ->
  strlen data < MAX_MSG_LEN ->
  exists ret m',
    SWireMaster_sendData (Some block) 0 data m = Done (ret, m') /\
    sent (bus m') = sent (bus m) /\
    rxBuffer (bus m') = take 1 (fst (bus_request (peers (bus m)) 0 1)) /\
    (ret = 1 <-> rxBuffer (bus m') <> []).
Proof.
  unfold MAX_MSG_LEN, strlen. intros Hblock Hdata.
  unfold SWireMaster_sendData, strcpy. rewrite length_app. simpl length.
  destruct (Z.leb_spec (Z.of_nat (Z.to_nat 1 + (length (c_str data) + 1)))
              (Z.of_nat (length block))); [|lia].
  cbn [obind]. destruct block as [|b0 block]; [simpl in Hblock; lia|].
  change (Z.to_nat 1) with 1%nat. simpl take.
  rewrite store_in_range by (simpl; lia). cbn [obind].
  rewrite sendPacket_empty by reflexivity. cbn [snd].
  unfold Wire_requestFrom.
  destruct (bus_request (peers (bus m)) 0 1) as [reply e].
  cbn [fst]. change (Z.to_nat 1) with 1%nat.
  destruct (take 1 reply) as [|b rest].
  - eexists. eexists. split; [reflexivity|]. simpl.
    repeat split; try reflexivity; try discriminate; try contradiction.
  - cbn [length]. replace (Z.of_nat (S (length rest)) =? 0) with false
      by (symmetry; apply Z.eqb_neq; lia).
    eexists. eexists. split; [reflexivity|]. simpl.
    repeat split; try reflexivity; try discriminate.
Qed.

(** A string of MAX_MSG_LEN bytes does not fit the block behind the
    client number: [strcpy] writes the terminator past the last cell. *)
Lemma master_sendData_oversized (client_id : Z) (data block : list char)
  (m : master E) :
  Z.of_nat (length block) = MAX_MSG_LEN + 1 ->
  MAX_MSG_LEN <= strlen data ->
  SWireMaster_sendData (Some block) client_id data m
    = OutOfBounds (MAX_MSG_LEN + 1).
Proof.
  unfold MAX_MSG_LEN, strlen. intros Hblock Hdata.
  unfold SWireMaster_sendData, strcpy. rewrite length_app. simpl length.
  destruct (Z.leb_spec (Z.of_nat (Z.to_nat 1 + (length (c_str data) + 1)))
              (Z.of_nat (length block))); [lia|].
  cbn [obind]. rewrite Hblock. reflexivity.
Qed.

(** One round of the sweep: one PING frame addressed to [i] is written,
    the table grows by at most one entry. *)
Lemma identify_step_done (i : Z) (m : master E) :
  1 <= i < 256 ->
  0 <= _num_clients m < Z.of_nat (length (_clients m)) ->
  Z.of_nat (length (_clients m)) < 256 ->
  exists m',
    identify_step i m = Done m' /\
    sent (bus m') = sent (bus m) ++ [(i, frame_of [i; PING])] /\
    _num_clients m <= _num_clients m' <= _num_clients m + 1 /\
    length (_clients m') = length (_clients m) /\
    master_in_messages m' = master_in_messages m.
Proof.
  intros Hi Hn Hlen. unfold identify_step.
  assert (Hc : to_char i = i) by (apply to_char_id; unfold is_char; lia).
  rewrite Hc.
  rewrite sendPacket_frame; simpl c_str; destruct (Z.eqb_spec i 0); try lia;
    [|discriminate|repeat constructor; unfold is_char, PING; lia].
  change (load [i; PING; 0] 0) with i. rewrite Hc. cbn [snd].
  unfold Wire_requestFrom. cbn [peers].
  destruct (bus_request _ i 1) as [reply e].
  destruct (negb (Z.of_nat (length (take (Z.to_nat 1) reply)) =? 0)).
  - unfold Wire_read. cbn [rxBuffer].
    destruct (take (Z.to_nat 1) reply) as [|rc rest].
    + destruct (to_char (-1) =? ACK).
      * rewrite store_in_range by exact Hn. cbn [obind].
        eexists. split; [reflexivity|]. simpl. rewrite length_insert.
        unfold to_char. rewrite Z.mod_small by lia. repeat split; lia.
      * eexists. split; [reflexivity|]. simpl. repeat split; lia.
    + destruct (to_char rc =? ACK).
      * rewrite store_in_range by exact Hn. cbn [obind].
        eexists. split; [reflexivity|]. simpl. rewrite length_insert.
        unfold to_char. rewrite Z.mod_small by lia. repeat split; lia.
      * eexists. split; [reflexivity|]. simpl. repeat split; lia.
  - eexists. split; [reflexivity|]. simpl. repeat split; lia.
Qed.

(** The loop from [i] on writes one PING frame to each of
    [i], ..., MAX_CLIENTS - 1, in this order, and to nobody else. *)
Lemma identify_loop_done (rounds : nat) :
  forall (i : Z) (m : master E),
    1 <= i <= MAX_CLIENTS ->
    MAX_CLIENTS - i <= Z.of_nat rounds ->
    0 <= _num_clients m < i ->
    Z.of_nat (length (_clients m)) = MAX_CLIENTS ->
    exists m',
      identify_loop rounds i m = Done m' /\
      sent (bus m') =
        sent (bus m) ++
        map (fun a => (a, frame_of [a; PING])) (seqZ i (MAX_CLIENTS - i)) /\
      0 <= _num_clients m' < MAX_CLIENTS /\
      master_in_messages m' = master_in_messages m.
Proof.
  unfold MAX_CLIENTS.
  induction rounds as [|rounds IH]; intros i m Hi Hrounds Hn Hlen.
  - assert (i = 16) as -> by lia. eexists. split; [reflexivity|].
    simpl. rewrite app_nil_r. repeat split; lia.
  - cbn [identify_loop]. unfold MAX_CLIENTS.
    destruct (Z.ltb_spec i 16) as [Hlt|Hge].
    + destruct (identify_step_done i m) as (m1 & Hstep & Hsent & Hn1 & Hlen1 & Hq1);
        try lia.
      rewrite Hstep. cbn [obind].
      destruct (IH (i + 1) m1) as (m' & Hloop & Hsent' & Hn' & Hq'); try lia.
      exists m'. split; [exact Hloop|]. split; [|split; [exact Hn'|congruence]].
      rewrite Hsent', Hsent, <- app_assoc. f_equal.
      rewrite (seqZ_cons i) by lia. simpl. do 3 f_equal; lia.
    + assert (i = 16) as -> by lia. eexists. split; [reflexivity|].
      simpl. rewrite app_nil_r. repeat split; lia.
Qed.

(** [identifyClients] returns, and the candidates it has written a PING
    to are 1, ..., MAX_CLIENTS - 1. *)
Lemma identifyClients_sweep (m : master E) :
  exists n m',
    identifyClients m = Done (n, m') /\
    n = _num_clients m' /\
    sent (bus m') =
      sent (bus m) ++
      map (fun a => (a, frame_of [a; PING])) (seqZ 1 (MAX_CLIENTS - 1)) /\
    master_in_messages m' = master_in_messages m.
Proof.
  unfold identifyClients.
  destruct (identify_loop_done (Z.to_nat MAX_CLIENTS) 1
              {| _num_clients := 0;
                 _clients := replicate (Z.to_nat MAX_CLIENTS) 0;
                 master_in_messages := master_in_messages m; bus := bus m |})
    as (m' & Hloop & Hsent & _ & Hq); try (simpl; unfold MAX_CLIENTS; lia).
  rewrite Hloop. cbn [obind]. exists (_num_clients m'), m'.
  repeat split; assumption.
Qed.

End MasterFacts.

Lemma master_sendData_immediate_witness :
  exists m',
    SWireMaster_sendData (Some stale_block) 5 [0x6F; 0x6B; 0]
      (SWireMaster (SWireClient 5)) = Done (1, m') /\
    sent (bus m') = [(5, [START; 5; 0x6F; 0x6B; 0; END])] /\
    master_in_messages m' = stringQueueInit MAX_MASTER_QUEUE_SIZE /\
    rxBuffer (bus m') = [ACK].
Proof.
  destruct (master_sendData_immediate (E := client) 5 [0x6F; 0x6B; 0] stale_block
              (SWireMaster (SWireClient 5)))
    as (ret & m' & Hrun & Hsent & Hq & _ & _ & Hrx & Hret & _).
  - lia.
  - repeat constructor; vm_compute; discriminate.
  - vm_compute. reflexivity.
  - reflexivity.
  - exists m'.
    assert (Hack : rxBuffer (bus m') = [ACK])
      by (rewrite Hrx; vm_compute; reflexivity).
    assert (Hone : ret = 1) by (apply Hret; rewrite Hack; discriminate).
    rewrite Hone in Hrun. split; [exact Hrun|].
    split; [exact Hsent|]. split; [exact Hq|exact Hack].
Defined.

(** C4, on the code.  The loop test of [identifyClients] is
    [i < MAX_CLIENTS]: on every bus the candidates that are sent a PING
    are 1, ..., MAX_CLIENTS - 1, and candidate MAX_CLIENTS is left out.
    With one client on the bus, the client numbered MAX_CLIENTS is not
    addressed at all and the count is 0, while the client numbered
    MAX_CLIENTS - 1 is found. *)
Theorem identifyClients_skips_MAX_CLIENTS :
  (forall (E : Type) (B : Bus E) (m : master E),
     exists n m',
       identifyClients m = Done (n, m') /\
       map fst (sent (bus m')) =
         map fst (sent (bus m)) ++ seqZ 1 (MAX_CLIENTS - 1)) /\
  (exists m',
     identifyClients (SWireMaster (SWireClient 16)) = Done (0, m') /\
     ~ In 16 (map fst (sent (bus m'))) /\
     firstn 1 (_clients m') = [0]) /\
  (exists m',
     identifyClients (SWireMaster (SWireClient 15)) = Done (1, m') /\
     In 15 (map fst (sent (bus m'))) /\
     firstn 1 (_clients m') = [15]).
Proof.
  split; [|split].
  - intros E B m.
    destruct (identifyClients_sweep m) as (n & m' & Hrun & _ & Hsent & _).
    exists n, m'. split; [exact Hrun|].
    rewrite Hsent, map_app, map_map. f_equal.
  - eexists. split; [vm_compute; reflexivity|]. split; [|reflexivity].
    vm_compute. intuition discriminate.
  - eexists. split; [vm_compute; reflexivity|]. split; [|reflexivity].
    vm_compute. intuition.
Qed.

(** * Further properties of the code *)

(** ** The framer across calls *)

Lemma terminate_frame_app (st : framer) (rx b buffer : list char) :
  terminate_frame st (rx ++ b) buffer =
  match terminate_frame st rx buffer with
  | Done r =>
    Done {| rcode := rcode r; statics := statics r; rx_rest := rx_rest r ++ b;
            out_buffer := out_buffer r |}
  | OutOfBounds i => OutOfBounds i
  end.
Proof.
  unfold terminate_frame.
  destruct (store (buf st) (index st - 1) 0) as [b0|]; [|reflexivity].
  cbn [obind]. destruct (strcpy buffer 0 b0) as [out|]; reflexivity.
Qed.

(** One call on [a ++ b], in terms of a call on [a]: if that call found
    no frame end, the run goes on with [b] from the statics it left; if it
    found one, [b] stays unread behind what it left unread. *)
Lemma readPacket_app (a b : list char) :
  forall (st : framer) (buffer : list char),
    readPacket st (a ++ b) buffer =
    match readPacket st a buffer with
    | Done r =>
      if rcode r =? 0 then readPacket (statics r) b buffer
      else Done {| rcode := rcode r; statics := statics r;
                   rx_rest := rx_rest r ++ b; out_buffer := out_buffer r |}
    | OutOfBounds i => OutOfBounds i
    end.
Proof.
  induction a as [|c a IH]; intros st buffer; [reflexivity|].
  rewrite <- app_comm_cons. cbn [readPacket].
  destruct (c =? START); [apply IH|].
  destruct (in_packet st =? 1); [|apply IH].
  match goal with |- (do st1 <- ?s; _) = _ => destruct s as [st1|] end;
    [|reflexivity].
  cbn [obind].
  destruct ((c =? END) || (MAX_MSG_LEN <=? index st1)); [|apply IH].
  rewrite terminate_frame_app.
  destruct (terminate_frame st1 a buffer) as [r|] eqn:Hterm; [|reflexivity].
  destruct (terminate_frame_rcode _ _ _ _ Hterm) as [-> | ->]; reflexivity.
Qed.

(** X1.  Frames split over several polls.  When a call of [readPacket]
    has returned 0, a later call on further bytes gives what one call on
    all the bytes would have given; when it has returned 1 or -1, bytes
    behind the ones it was given would have stayed unread and change
    nothing else. *)
Theorem readPacket_resume (st : framer) (a b buffer : list char)
  (r : read_result) :
  readPacket st a buffer = Done r ->
  (rcode r = 0 ->
   readPacket st (a ++ b) buffer = readPacket (statics r) b buffer) /\
  (rcode r <> 0 ->
   readPacket st (a ++ b) buffer =
   Done {| rcode := rcode r; statics := statics r; rx_rest := rx_rest r ++ b;
           out_buffer := out_buffer r |}).
Proof.
  intros Hrun. rewrite readPacket_app, Hrun. split.
  - intros ->. reflexivity.
  - intros Hcode. destruct (Z.eqb_spec (rcode r) 0); [contradiction|reflexivity].
Qed.

Lemma readPacket_resume_witness :
  readPacket framer_init ([START; 5] ++ [0x68; 0x0D; END]) stale_block =
  readPacket (absorb (started framer_init) [5]) [0x68; 0x0D; END] stale_block.
Proof.
  apply (proj1 (readPacket_resume framer_init [START; 5] [0x68; 0x0D; END]
                  stale_block
                  (ReadResult 0 (absorb (started framer_init) [5]) [] stale_block)
                  eq_refl)).
  reflexivity.
Defined.

(** A proper beginning of an input on which a call ends a frame with its
    last byte does not end a frame. *)
Lemma readPacket_proper_prefix (st : framer) (a b buffer : list char)
  (r : read_result) :
  readPacket st (a ++ b) buffer = Done r -> rx_rest r = [] -> b <> [] ->
  exists r1,
    readPacket st a buffer = Done r1 /\ rcode r1 = 0 /\
    out_buffer r1 = buffer /\
    readPacket (statics r1) b buffer = Done r.
Proof.
  intros Hrun Hrest Hb. rewrite readPacket_app in Hrun.
  destruct (readPacket st a buffer) as [r1|] eqn:Ha; [|discriminate].
  destruct (Z.eqb_spec (rcode r1) 0) as [Hz|Hnz].
  - exists r1. split; [reflexivity|]. split; [exact Hz|].
    split; [|exact Hrun].
    apply (readPacket_no_packet _ _ _ _ Ha Hz).
  - injection Hrun as <-. simpl in Hrest.
    apply app_eq_nil in Hrest as [_ Hnil]. contradiction.
Qed.

(** X2.  The round trip of a payload (of 1 to MAX_MSG_LEN - 2 bytes, none
    of them null, START or END, with a parity byte that is neither START
    nor END) survives any split of its frame into two deliveries: the
    call on the first part returns 0 and leaves the caller's block alone,
    the call on the second part returns 1 and hands out the payload. *)
Theorem round_trip_split (P a b : list char) (st : framer) (buffer : list char) :
  (1 <= length P)%nat ->
  Z.of_nat (length P) <= MAX_MSG_LEN - 2 ->
  Forall payload_byte P ->
  plain (parity_byte P) ->
  Z.of_nat (length (buf st)) = MAX_MSG_LEN + 1 ->
  Z.of_nat (length buffer) = MAX_MSG_LEN + 1 ->
  a ++ b = serialize P -> b <> [] ->
  exists r1 r2,
    readPacket st a buffer = Done r1 /\ rcode r1 = 0 /\
    out_buffer r1 = buffer /\
    readPacket (statics r1) b buffer = Done r2 /\
    rcode r2 = 1 /\ c_str (out_buffer r2) = P /\ rx_rest r2 = [].
Proof.
  intros Hne Hlen HP Hpar Hbuf Hbuffer Hsplit Hb.
  destruct (round_trip_frame P st buffer Hne Hlen HP Hpar Hbuf Hbuffer)
    as (r & Hrun & Hcode & Hstr & Hrest).
  rewrite <- (serialize_payload P), <- Hsplit in Hrun;
    [|intros ->; simpl in Hne; lia|exact HP].
  destruct (readPacket_proper_prefix st a b buffer r Hrun Hrest Hb)
    as (r1 & Ha & Hz & Hout & Hb2).
  exists r1, r. repeat split; assumption.
Qed.

Lemma round_trip_split_witness :
  exists r1 r2,
    readPacket framer_init [START; 5; 0x68] stale_block = Done r1 /\
    rcode r1 = 0 /\ out_buffer r1 = stale_block /\
    readPacket (statics r1) [0x69; 5; END] stale_block = Done r2 /\
    rcode r2 = 1 /\ c_str (out_buffer r2) = [5; 0x68; 0x69] /\ rx_rest r2 = [].
Proof.
  apply (round_trip_split [5; 0x68; 0x69] [START; 5; 0x68] [0x69; 5; END]
           framer_init stale_block).
  - simpl. lia.
  - vm_compute. discriminate.
  - payload_bytes.
  - vm_compute. split; discriminate.
  - reflexivity.
  - reflexivity.
  - reflexivity.
  - discriminate.
Defined.

(** ** What a call leaves behind *)

Lemma terminate_frame_shape (st : framer) (rx buffer : list char)
  (r : read_result) :
  terminate_frame st rx buffer = Done r ->
  1 <= index st <= Z.of_nat (length (buf st)) /\
  (rcode r = 1 \/ rcode r = -1) /\
  (rcode r = 1 <-> Z.land (data_parity st) 0x7F = 0) /\
  statics r = {| in_packet := 0; index := 0;
                 buf := <[Z.to_nat (index st - 1) := 0]> (buf st);
                 data_parity := 0; escape_next := escape_next st |} /\
  rx_rest r = rx /\
  length (out_buffer r) = length buffer /\
  c_str (out_buffer r) = c_str (take (Z.to_nat (index st - 1)) (buf st)).
Proof.
  intros Hrun.
  destruct (terminate_frame_inv _ _ _ _ Hrun) as [Hidx Hstr].
  split; [exact Hidx|]. split; [eapply terminate_frame_rcode; exact Hrun|].
  unfold terminate_frame in Hrun.
  rewrite store_in_range in Hrun by lia. cbn [obind] in Hrun.
  unfold strcpy in Hrun. simpl Z.to_nat in Hrun. simpl take in Hrun.
  match type of Hrun with context [if ?b then _ else _] =>
    destruct b eqn:Hfit end; [|discriminate].
  cbn [obind] in Hrun. injection Hrun as <-. cbn [rcode statics rx_rest out_buffer].
  split; [|split; [reflexivity|split; [reflexivity|split; [|exact Hstr]]]].
  - destruct (Z.eqb_spec (Z.land (data_parity st) 127) 0) as [Hz|Hz];
      split; intros; try assumption; try reflexivity; try discriminate; contradiction.
  - apply Z.leb_le in Hfit. simpl in *.
    rewrite !length_app, length_drop in *. simpl in *. lia.
Qed.

(** X5.  What [readPacket] returns.  Either 0, and then every byte has
    been read and the caller's block is untouched; or 1 or -1, and then
    the statics are back to idle (not in a packet, index 0, parity 0), a
    string has been written into the caller's block, whose size is kept,
    and the bytes behind the frame end are unread.  [buf] keeps its size.
    Nothing else is ever returned. *)
Theorem readPacket_result_shape (rx : list char) :
  forall (st : framer) (buffer : list char) (r : read_result),
    readPacket st rx buffer = Done r ->
    length (buf (statics r)) = length (buf st) /\
    length (out_buffer r) = length buffer /\
    ((rcode r = 0 /\ rx_rest r = [] /\ out_buffer r = buffer) \/
     ((rcode r = 1 \/ rcode r = -1) /\
      in_packet (statics r) = 0 /\ index (statics r) = 0 /\
      data_parity (statics r) = 0 /\
      exists used last, rx = used ++ last :: rx_rest r)).
Proof.
  induction rx as [|c rx IH]; intros st buffer r Hrun.
  - simpl in Hrun. injection Hrun as <-. simpl.
    split; [reflexivity|]. split; [reflexivity|]. left. repeat split.
  - assert (Hlater : forall st',
              length (buf st') = length (buf st) ->
              readPacket st' rx buffer = Done r ->
              length (buf (statics r)) = length (buf st) /\
              length (out_buffer r) = length buffer /\
              ((rcode r = 0 /\ rx_rest r = [] /\ out_buffer r = buffer) \/
               ((rcode r = 1 \/ rcode r = -1) /\
                in_packet (statics r) = 0 /\ index (statics r) = 0 /\
                data_parity (statics r) = 0 /\
                exists used last, c :: rx = used ++ last :: rx_rest r))).
    { intros st' Hsame Hrun'.
      destruct (IH st' buffer r Hrun') as (Hb & Ho & Hcases).
      split; [congruence|]. split; [exact Ho|].
      destruct Hcases as [Hzero|(Hc & Hi & Hx & Hp & used & last & Hrx)];
        [left; exact Hzero|right].
      repeat split; try assumption.
      exists (c :: used), last. rewrite Hrx. reflexivity. }
    simpl in Hrun.
    destruct (c =? START); [eapply Hlater; [|exact Hrun]; reflexivity|].
    destruct (in_packet st =? 1); [|eapply Hlater; [|exact Hrun]; reflexivity].
    destruct (c =? END); cbn [negb obind orb] in Hrun.
    + apply terminate_frame_shape in Hrun
        as (_ & Hcode & _ & Hst & Hrest & Hout & _).
      rewrite Hst. simpl in *. rewrite length_insert.
      split; [reflexivity|]. split; [exact Hout|]. right.
      repeat split; try assumption.
      exists [], c. rewrite Hrest. reflexivity.
    + unfold store in Hrun.
      destruct ((0 <=? index st) && (index st <? Z.of_nat (length (buf st))));
        [|discriminate].
      cbn [obind index] in Hrun.
      destruct (MAX_MSG_LEN <=? index st + 1).
      * apply terminate_frame_shape in Hrun
          as (_ & Hcode & _ & Hst & Hrest & Hout & _).
        rewrite Hst. simpl in *. rewrite !length_insert.
        split; [reflexivity|]. split; [exact Hout|]. right.
        repeat split; try assumption.
        exists [], c. rewrite Hrest. reflexivity.
      * eapply Hlater; [|exact Hrun]. apply length_insert.
Qed.

Lemma readPacket_buf_length (rx : list char) :
  forall (st : framer) (buffer : list char) (r : read_result),
    readPacket st rx buffer = Done r ->
    length (buf (statics r)) = length (buf st).
Proof.
  induction rx as [|c rx IH]; intros st buffer r Hrun.
  - simpl in Hrun. injection Hrun as <-. reflexivity.
  - simpl in Hrun.
    destruct (c =? START); [apply (IH _ _ _ Hrun)|].
    destruct (in_packet st =? 1); [|apply (IH _ _ _ Hrun)].
    destruct (c =? END); cbn [negb obind orb] in Hrun.
    + apply terminate_frame_shape in Hrun as (_ & _ & _ & -> & _).
      simpl. apply length_insert.
    + unfold store in Hrun.
      destruct ((0 <=? index st) && (index st <? Z.of_nat (length (buf st))));
        [|discriminate].
      cbn [obind index] in Hrun.
      destruct (MAX_MSG_LEN <=? index st + 1).
      * apply terminate_frame_shape in Hrun as (_ & _ & _ & -> & _).
        simpl. rewrite !length_insert. reflexivity.
      * rewrite (IH _ _ _ Hrun). apply length_insert.
Qed.

Lemma readPacket_out_length (rx : list char) :
  forall (st : framer) (buffer : list char) (r : read_result),
    readPacket st rx buffer = Done r ->
    length (out_buffer r) = length buffer.
Proof.
  induction rx as [|c rx IH]; intros st buffer r Hrun.
  - simpl in Hrun. injection Hrun as <-. reflexivity.
  - simpl in Hrun.
    destruct (c =? START); [apply (IH _ _ _ Hrun)|].
    destruct (in_packet st =? 1); [|apply (IH _ _ _ Hrun)].
    match type of Hrun with (do st1 <- ?s; _) = _ => destruct s as [st1|] end;
      [|discriminate].
    cbn [obind] in Hrun.
    destruct ((c =? END) || (MAX_MSG_LEN <=? index st1)).
    + apply terminate_frame_shape in Hrun as (_ & _ & _ & _ & _ & Hout & _).
      exact Hout.
    + apply (IH _ _ _ Hrun).
Qed.

Lemma readPacket_sizes_kept (rx : list char) (st : framer)
  (buffer : list char) (r : read_result) :
  readPacket st rx buffer = Done r ->
  length (buf (statics r)) = length (buf st) /\
  length (out_buffer r) = length buffer.
Proof.
  intros Hrun. split.
  - eapply readPacket_buf_length. exact Hrun.
  - eapply readPacket_out_length. exact Hrun.
Qed.

(** X3.  Resynchronisation.  Whatever has been read before without
    ending a frame (noise while idle, or the beginning of a frame that is
    never finished), a frame that follows is received as if nothing had
    come before: START sets the framer back.  For a payload of 1 to
    MAX_MSG_LEN - 2 bytes without null, START or END, whose parity byte is
    neither START nor END, the call returns 1 with the payload. *)
Theorem frame_after_any_prefix (pre P : list char) (st : framer)
  (buffer : list char) (r0 : read_result) :
  readPacket st pre buffer = Done r0 -> rcode r0 = 0 ->
  (1 <= length P)%nat ->
  Z.of_nat (length P) <= MAX_MSG_LEN - 2 ->
  Forall payload_byte P ->
  plain (parity_byte P) ->
  Z.of_nat (length (buf st)) = MAX_MSG_LEN + 1 ->
  Z.of_nat (length buffer) = MAX_MSG_LEN + 1 ->
  exists r,
    readPacket st (pre ++ serialize P) buffer = Done r /\
    rcode r = 1 /\ c_str (out_buffer r) = P /\ rx_rest r = [].
Proof.
  intros Hpre Hzero Hne Hlen HP Hpar Hbuf Hbuffer.
  rewrite readPacket_app, Hpre, Hzero. cbn [Z.eqb].
  rewrite serialize_payload by (try assumption; intros ->; simpl in Hne; lia).
  apply round_trip_frame; try assumption.
  rewrite (readPacket_buf_length _ _ _ _ Hpre). exact Hbuf.
Qed.

Lemma frame_after_any_prefix_witness :
  exists r,
    readPacket framer_init ([9; START; 1; 2; 3] ++ serialize [5; 0x68; 0x69])
      stale_block = Done r /\
    rcode r = 1 /\ c_str (out_buffer r) = [5; 0x68; 0x69] /\ rx_rest r = [].
Proof.
  apply (frame_after_any_prefix [9; START; 1; 2; 3] [5; 0x68; 0x69] framer_init
           stale_block
           (ReadResult 0 (absorb (started framer_init) [1; 2; 3]) [] stale_block)).
  - reflexivity.
  - reflexivity.
  - simpl. lia.
  - vm_compute. discriminate.
  - payload_bytes.
  - vm_compute. split; discriminate.
  - reflexivity.
  - reflexivity.
Defined.

Lemma readPacket_result_shape_witness :
  exists r,
    readPacket framer_init [START; 1; 2; 0x81; END; 9] stale_block = Done r /\
    length (buf (statics r)) = length (buf framer_init) /\
    length (out_buffer r) = length stale_block /\
    ((rcode r = 0 /\ rx_rest r = [] /\ out_buffer r = stale_block) \/
     ((rcode r = 1 \/ rcode r = -1) /\
      in_packet (statics r) = 0 /\ index (statics r) = 0 /\
      data_parity (statics r) = 0 /\
      exists used last, [START; 1; 2; 0x81; END; 9] = used ++ last :: rx_rest r)).
Proof.
  eexists. split; [vm_compute; reflexivity|].
  apply (readPacket_result_shape [START; 1; 2; 0x81; END; 9] framer_init stale_block).
  vm_compute. reflexivity.
Defined.

(** ** What the parity check sees *)

Lemma xor_all_0 (a : Z) (l : list char) : xor_all a l = Z.lxor a (xor_all 0 l).
Proof. rewrite <- xor_all_shift, Z.lxor_0_r. reflexivity. Qed.

(** The frame built for one payload, with another payload put in its
    place: what is left in the parity is the exclusive-or of the two
    payloads. *)
Lemma swapped_payload_parity (P P' : list char) :
  Z.lxor (xor_all START (P' ++ [parity_byte P])) END =
  Z.lxor (xor_all 0 P) (xor_all 0 P').
Proof.
  rewrite xor_all_app. simpl. unfold parity_byte.
  rewrite (xor_all_0 START P').
  apply Z.bits_inj'. intros n _. rewrite !Z.lxor_spec.
  destruct (Z.testbit START n), (Z.testbit END n),
    (Z.testbit (xor_all 0 P) n), (Z.testbit (xor_all 0 P') n); reflexivity.
Qed.

Lemma xor_all_one_byte (pre post : list char) (c c' : char) :
  Z.lxor (xor_all 0 (pre ++ c :: post)) (xor_all 0 (pre ++ c' :: post)) =
  Z.lxor c c'.
Proof.
  rewrite !xor_all_app. simpl.
  rewrite (xor_all_0 (Z.lxor (xor_all 0 pre) c)),
          (xor_all_0 (Z.lxor (xor_all 0 pre) c')).
  apply Z.bits_inj'. intros n _. rewrite !Z.lxor_spec.
  destruct (Z.testbit (xor_all 0 pre) n), (Z.testbit c n), (Z.testbit c' n),
    (Z.testbit (xor_all 0 post) n); reflexivity.
Qed.

(** X4.  Parity detection and its blind spot.  Take the frame that
    [sendPacket] builds for a payload and replace one payload byte [c] by
    [c'] on the wire (the result still being a frame: no byte of it is
    null, START or END).  [readPacket] hands out the altered payload, and
    answers -1 exactly when [c] and [c'] differ in one of their low seven
    bits; a change confined to bit 7 is answered 1, the altered payload
    passes as valid. *)
Theorem parity_detects_low_seven_bits (pre post : list char) (c c' : char)
  (st : framer) (buffer : list char) :
  Forall payload_byte (pre ++ c' :: post) ->
  plain (parity_byte (pre ++ c :: post)) ->
  Z.of_nat (length (pre ++ c :: post)) <= MAX_MSG_LEN - 2 ->
  Z.of_nat (length (buf st)) = MAX_MSG_LEN + 1 ->
  Z.of_nat (length buffer) = MAX_MSG_LEN + 1 ->
  exists r,
    readPacket st
      (START :: (pre ++ c' :: post) ++ [parity_byte (pre ++ c :: post); END])
      buffer = Done r /\
    c_str (out_buffer r) = pre ++ c' :: post /\
    (rcode r = -1 <-> Z.land (Z.lxor c c') 0x7F <> 0) /\
    (rcode r = 1 <-> Z.land (Z.lxor c c') 0x7F = 0).
Proof.
  intros HP Hpar Hlen Hbuf Hbuffer.
  set (P := pre ++ c :: post) in *. set (P' := pre ++ c' :: post) in *.
  assert (Hsame : length P' = length P)
    by (unfold P, P'; rewrite !length_app; reflexivity).
  replace (P' ++ [parity_byte P; END]) with ((P' ++ [parity_byte P]) ++ END :: [])
    by (rewrite <- app_assoc; reflexivity).
  destruct (readPacket_frame st (P' ++ [parity_byte P]) [] buffer)
    as (r & Hrun & Hcode & _ & Hstr & _); try assumption.
  - apply Forall_app. split; [apply payload_bytes_plain; exact HP|].
    constructor; [exact Hpar|constructor].
  - rewrite length_app. simpl. lia.
  - rewrite length_app. simpl. unfold MAX_MSG_LEN in *. lia.
  - exists r. split; [exact Hrun|]. split.
    + rewrite Hstr, length_app. simpl.
      replace (length P' + 1 - 1)%nat with (length P') by lia.
      rewrite take_app_length. apply payload_bytes_c_str. exact HP.
    + rewrite Hcode, swapped_payload_parity. unfold P, P'.
      rewrite xor_all_one_byte.
      destruct (Z.eqb_spec (Z.land (Z.lxor c c') 127) 0) as [Hz|Hz];
        split; split; intros; try assumption; try reflexivity;
        try discriminate; contradiction.
Qed.

Lemma parity_detects_low_seven_bits_witness :
  (exists r,
     readPacket framer_init
       (START :: ([5] ++ 0x69 :: [0x69]) ++ [parity_byte ([5] ++ 0x68 :: [0x69]); END])
       stale_block = Done r /\
     c_str (out_buffer r) = [5] ++ 0x69 :: [0x69] /\
     (rcode r = -1 <-> Z.land (Z.lxor 0x68 0x69) 0x7F <> 0) /\
     (rcode r = 1 <-> Z.land (Z.lxor 0x68 0x69) 0x7F = 0)) /\
  (exists r,
     readPacket framer_init
       (START :: ([5] ++ 0xE8 :: [0x69]) ++ [parity_byte ([5] ++ 0x68 :: [0x69]); END])
       stale_block = Done r /\
     c_str (out_buffer r) = [5] ++ 0xE8 :: [0x69] /\
     (rcode r = -1 <-> Z.land (Z.lxor 0x68 0xE8) 0x7F <> 0) /\
     (rcode r = 1 <-> Z.land (Z.lxor 0x68 0xE8) 0x7F = 0)).
Proof.
  split.
  - apply (parity_detects_low_seven_bits [5] [0x69] 0x68 0x69 framer_init stale_block).
    + simpl. payload_bytes.
    + vm_compute. split; discriminate.
    + vm_compute. discriminate.
    + reflexivity.
    + reflexivity.
  - apply (parity_detects_low_seven_bits [5] [0x69] 0x68 0xE8 framer_init stale_block).
    + simpl. payload_bytes.
    + vm_compute. split; discriminate.
    + vm_compute. discriminate.
    + reflexivity.
    + reflexivity.
Defined.

(** ** The invariant of the framer *)

Lemma framer_init_inv : framer_inv framer_init.
Proof.
  split; [split; [simpl; unfold MAX_MSG_LEN; lia|reflexivity]|].
  intros Hin. discriminate Hin.
Qed.

Lemma c_str_take_length (l : list char) (n : nat) :
  (length (c_str (take n l)) <= n)%nat.
Proof.
  pose proof (c_str_length_le (take n l)) as Hle.
  rewrite length_take in Hle. lia.
Qed.

(** X6.  The statics of [readPacket] keep their invariant over any input
    on which the call returns: the write index stays in
    0 .. MAX_MSG_LEN - 1, [buf] keeps its MAX_MSG_LEN + 1 cells, and inside
    a frame the cells below the index hold stored bytes only.  The string
    handed out with a return code 1 or -1 has at most MAX_MSG_LEN - 1
    bytes and none of them is START or END. *)
Theorem readPacket_keeps_invariant (rx : list char) :
  forall (st : framer) (buffer : list char) (r : read_result),
    framer_inv st ->
    readPacket st rx buffer = Done r ->
    framer_inv (statics r) /\
    (rcode r <> 0 ->
     Z.of_nat (length (c_str (out_buffer r))) <= MAX_MSG_LEN - 1 /\
     Forall plain (c_str (out_buffer r))).
Proof.
  unfold framer_inv, framer_ok, MAX_MSG_LEN.
  induction rx as [|c rx IH]; intros st buffer r [[Hidx Hbuf] Hpre] Hrun.
  - simpl in Hrun. injection Hrun as <-. simpl.
    split; [split; [split|]; assumption|]. intros Hc. contradiction.
  - simpl in Hrun. destruct (Z.eqb_spec c START) as [->|Hs].
    { eapply IH; [|exact Hrun]. simpl.
      split; [split; [lia|exact Hbuf]|]. intros _. constructor. }
    destruct (Z.eqb_spec (in_packet st) 1) as [Hin|Hin];
      [|eapply IH; [|exact Hrun]; split; [split|]; assumption].
    specialize (Hpre Hin).
    assert (Hidle : forall b e,
              length b = length (buf st) ->
              (0 <= index {| in_packet := 0; index := 0; buf := b;
                             data_parity := 0; escape_next := e |} < 16 /\
               Z.of_nat (length (buf {| in_packet := 0; index := 0; buf := b;
                             data_parity := 0; escape_next := e |})) = 16 + 1) /\
              (in_packet {| in_packet := 0; index := 0; buf := b;
                            data_parity := 0; escape_next := e |} = 1 ->
               Forall plain (take (Z.to_nat 0) b))).
    { intros b e Hb. simpl. rewrite Hb. split; [split; [lia|exact Hbuf]|].
      intros Habs. discriminate Habs. }
    destruct (Z.eqb_spec c END) as [->|He]; cbn [negb obind orb] in Hrun.
    + apply terminate_frame_shape in Hrun
        as (Hrange & _ & _ & Hst & _ & _ & Hstr).
      simpl in Hrange, Hst, Hstr. rewrite Hst, Hstr.
      split; [apply Hidle; simpl; apply length_insert|]. intros _. split.
      * pose proof (c_str_take_length (buf st) (Z.to_nat (index st - 1))). lia.
      * apply Forall_c_str.
        replace (Z.to_nat (index st - 1))
          with (min (Z.to_nat (index st - 1)) (Z.to_nat (index st))) by lia.
        rewrite <- take_take. apply Forall_take. exact Hpre.
    + rewrite store_in_range in Hrun by lia. cbn [obind index] in Hrun.
      assert (Hnew : Forall plain
                (take (Z.to_nat (index st + 1))
                   (<[Z.to_nat (index st) := c]> (buf st)))).
      { replace (Z.to_nat (index st + 1)) with (S (Z.to_nat (index st))) by lia.
        rewrite (take_S_r _ _ c) by (apply list_lookup_insert_eq; lia).
        rewrite take_insert_ge by lia.
        apply Forall_app. split; [exact Hpre|].
        constructor; [split; assumption|constructor]. }
      destruct (Z.leb_spec MAX_MSG_LEN (index st + 1)) as [Hfull|Hroom];
        unfold MAX_MSG_LEN in *.
      * apply terminate_frame_shape in Hrun
          as (Hrange & _ & _ & Hst & _ & _ & Hstr).
        simpl in Hrange, Hst, Hstr. rewrite Hst, Hstr.
        split; [apply Hidle; simpl; rewrite !length_insert; reflexivity|].
        intros _. split.
        -- pose proof (c_str_take_length (<[Z.to_nat (index st) := c]> (buf st))
                         (Z.to_nat (index st + 1 - 1))). lia.
        -- apply Forall_c_str.
           replace (Z.to_nat (index st + 1 - 1))
             with (min (Z.to_nat (index st)) (Z.to_nat (index st + 1))) by lia.
           rewrite <- take_take. apply Forall_take. exact Hnew.
      * eapply IH; [|exact Hrun]. simpl. rewrite length_insert.
        split; [split; [lia|exact Hbuf]|]. intros _. exact Hnew.
Qed.

Lemma readPacket_keeps_invariant_witness :
  exists r,
    readPacket framer_init [9; START; 1; 2; START; 3; 4; 7; END; START; 5]
      stale_block = Done r /\
    framer_inv (statics r) /\
    (rcode r <> 0 ->
     Z.of_nat (length (c_str (out_buffer r))) <= MAX_MSG_LEN - 1 /\
     Forall plain (c_str (out_buffer r))).
Proof.
  eexists. split; [vm_compute; reflexivity|].
  apply (readPacket_keeps_invariant
           [9; START; 1; 2; START; 3; 4; 7; END; START; 5] framer_init stale_block).
  - split; [split; [simpl; unfold MAX_MSG_LEN; lia|reflexivity]|].
    intros Hin. discriminate Hin.
  - vm_compute. reflexivity.
Defined.

(** ** Receive events *)


Lemma load_c_str_0 (l : list char) (a : char) (s : list char) :
  c_str l = a :: s -> load l 0 = a /\ a <> 0.
Proof.
  destruct l as [|x l]; simpl; [discriminate|].
  destruct (Z.eqb_spec x 0); [discriminate|]. intros Heq.
  injection Heq as -> _. split; [reflexivity|assumption].
Qed.

Lemma load_c_str_hd (l : list char) (a : char) (s : list char) :
  c_str l = a :: s -> load l 1 = hd 0 s.
Proof.
  destruct l as [|x [|y l]]; simpl; try discriminate.
  - destruct (x =? 0); [discriminate|]. intros Heq. injection Heq as _ <-.
    reflexivity.
  - destruct (x =? 0); [discriminate|]. destruct (Z.eqb_spec y 0) as [->|Hy];
      intros Heq; injection Heq as _ <-; reflexivity.
Qed.

(** What a receive event with a successful allocation leaves alone, and
    what it takes from the block. *)
Lemma deliver_fields (bytes block : list char) (c c' : client) :
  deliver bytes (Some block) c = Done c' ->
  _out_messages c' = _out_messages c /\
  _client_number c' = _client_number c /\
  bufferAlocFailed c' = bufferAlocFailed c /\
  exists r,
    readPacket (rp_statics c) bytes block = Done r /\
    rp_statics c' = statics r /\
    wire_rx c' = rx_rest r /\
    currentCommand c' = load (out_buffer r) 1 /\
    _in_messages c' =
      (if negb (load (out_buffer r) 1 =? PING)
          && negb (load (out_buffer r) 1 =? READ)
          && negb (load (out_buffer r) 1 =? NO_DATA)
       then snd (stringQueueAdd (_in_messages c) (out_buffer r))
       else _in_messages c).
Proof.
  unfold deliver, receiveEvent. cbn [rp_statics wire_rx].
  destruct (readPacket (rp_statics c) bytes block) as [r|]; [|discriminate].
  cbn [obind]. intros Hrun. injection Hrun as <-. simpl.
  repeat split; try reflexivity. exists r. repeat split; reflexivity.
Qed.

(** A receive event that carries the frame of a message of at least one
    byte (for a payload that makes the round trip). *)
Lemma deliver_frame (c : client) (a : char) (s block : list char) :
  Forall payload_byte (a :: s) ->
  plain (parity_byte (a :: s)) ->
  Z.of_nat (length s) + 1 <= MAX_MSG_LEN - 2 ->
  Z.of_nat (length (buf (rp_statics c))) = MAX_MSG_LEN + 1 ->
  Z.of_nat (length block) = MAX_MSG_LEN + 1 ->
  exists msg c',
    deliver (frame_of (a :: s)) (Some block) c = Done c' /\
    c_str msg = a :: s /\
    Z.of_nat (length msg) = MAX_MSG_LEN + 1 /\
    currentCommand c' = hd 0 s /\
    _in_messages c' =
      (if negb (hd 0 s =? PING) && negb (hd 0 s =? READ)
          && negb (hd 0 s =? NO_DATA)
       then snd (stringQueueAdd (_in_messages c) msg)
       else _in_messages c) /\
    _out_messages c' = _out_messages c /\
    _client_number c' = _client_number c /\
    bufferAlocFailed c' = bufferAlocFailed c /\
    Z.of_nat (length (buf (rp_statics c'))) = MAX_MSG_LEN + 1.
Proof.
  intros HP Hpar Hlen Hbuf Hblock.
  destruct (round_trip_frame (a :: s) (rp_statics c) block)
    as (r & Hrun & _ & Hstr & _); try assumption;
    [simpl; lia|simpl length; lia|].
  destruct (deliver (frame_of (a :: s)) (Some block) c) as [c'|] eqn:Hdel.
  - destruct (deliver_fields _ _ _ _ Hdel)
      as (Hout & Hnum & Hflag & r' & Hrun' & Hst & _ & Hcmd & Hin).
    rewrite Hrun in Hrun'. injection Hrun' as <-.
    rewrite (load_c_str_hd _ _ _ Hstr) in Hcmd, Hin.
    exists (out_buffer r), c'. split; [reflexivity|]. split; [exact Hstr|].
    destruct (readPacket_sizes_kept _ _ _ _ Hrun) as [Hb Ho].
    repeat split; try assumption; try lia.
    rewrite Hst. lia.
  - unfold deliver, receiveEvent in Hdel. cbn [rp_statics wire_rx] in Hdel.
    rewrite Hrun in Hdel. discriminate Hdel.
Qed.

(** The two command messages of the master, for a client number in
    1 .. MAX_CLIENTS: their frames collide with no framing byte. *)
Lemma command_frame (id cmd : char) :
  1 <= id <= MAX_CLIENTS -> cmd = PING \/ cmd = READ ->
  serialize [id; cmd; 0] = frame_of [id; cmd] /\
  Forall payload_byte [id; cmd] /\
  plain (parity_byte [id; cmd]).
Proof.
  unfold MAX_CLIENTS. intros Hid Hcmd.
  assert (Hcases : id = 1 \/ id = 2 \/ id = 3 \/ id = 4 \/ id = 5 \/ id = 6 \/
                   id = 7 \/ id = 8 \/ id = 9 \/ id = 10 \/ id = 11 \/ id = 12 \/
                   id = 13 \/ id = 14 \/ id = 15 \/ id = 16) by lia.
  assert (HP : Forall payload_byte [id; cmd]).
  { destruct Hcmd as [-> | ->];
      (constructor; [unfold payload_byte, is_char, START, END; lia|]);
      (constructor; [vm_compute; intuition discriminate|constructor]). }
  split; [|split; [exact HP|]].
  - rewrite serialize_frame; simpl; destruct (Z.eqb_spec id 0); try lia;
      destruct Hcmd as [-> | ->]; simpl;
      first [reflexivity|discriminate
            |repeat constructor; unfold is_char, PING, READ; lia].
  - destruct Hcmd as [-> | ->];
      repeat (destruct Hcases as [->|Hcases]; [vm_compute; split; discriminate|]);
      subst id; vm_compute; split; discriminate.
Qed.



(** ** The client between the application and the bus *)



(** ** From the master to a client *)

Section MasterRuns.
Context {E : Type} `{Bus E}.


End MasterRuns.

(** The bus with one client, written out. *)
Lemma one_client_frame (c : client) (address : Z) (bytes : list char) :
  bus_frame c address bytes =
  if address =? _client_number c then
    match deliver bytes (Some stale_block) c with
    | Done c' => c'
    | OutOfBounds _ => c
    end
  else c.
Proof. reflexivity. Qed.

Lemma one_client_request (c : client) (address quantity : Z) :
  bus_request c address quantity =
  if address =? _client_number c then requestEvent c else ([], c).
Proof. reflexivity. Qed.




(** ** Polling the clients *)

Lemma until_ff_length (l : list char) : (length (until_ff l) <= length l)%nat.
Proof.
  induction l as [|c l IH]; simpl; [lia|].
  destruct (c =? 255); simpl; lia.
Qed.


Lemma drop_two_cells (message : list char) (idx : nat) :
  (idx + 2 <= length message)%nat ->
  exists a b,
    message = take idx message ++ a :: b :: drop (idx + 2) message.
Proof.
  intros Hfit.
  destruct (drop idx message) as [|a [|b post]] eqn:Hd;
    try (apply (f_equal length) in Hd; rewrite length_drop in Hd;
         simpl in Hd; lia).
  exists a, b. rewrite <- (drop_drop message 2 idx), Hd. simpl. rewrite drop_0.
  rewrite <- Hd, take_drop. reflexivity.
Qed.

(** [message[idx] = rc; message[idx + 1] = 0;] *)
Lemma store_byte_and_terminator (message : list char) (idx : nat) (rc : char) :
  (idx + 2 <= length message)%nat ->
  store (<[idx := rc]> message) (Z.of_nat idx + 1) 0 =
  Done (take idx message ++ rc :: 0 :: drop (idx + 2) message).
Proof.
  intros Hfit.
  rewrite store_in_range by (rewrite length_insert; lia).
  f_equal. replace (Z.to_nat (Z.of_nat idx + 1)) with (S idx) by lia.
  destruct (drop_two_cells message idx Hfit) as (a & b & Hsplit).
  assert (Hpre : length (take idx message) = idx) by (rewrite length_take; lia).
  rewrite Hsplit at 1.
  rewrite (insert_app_r_alt _ _ idx) by lia.
  rewrite (insert_app_r_alt _ _ (S idx)) by lia.
  rewrite Hpre. replace (idx - idx)%nat with 0%nat by lia.
  replace (S idx - idx)%nat with 1%nat by lia. reflexivity.
Qed.

Section Polling.
Context {E : Type} `{Bus E}.

(** The inner loop of [scanMessages] on a receive buffer [l]: the byte in
    hand and the bytes of [l] before the first 0xFF (or all of [l]: an
    empty receive buffer reads as 0xFF) are stored from [idx] on, followed
    by the terminator. *)
Lemma read_message_run (l : list char) :
  forall (rounds idx : nat) (rc : char) (message : list char) (w : wire E),
    rxBuffer w = l ->
    Forall is_char l ->
    (idx + length (until_ff l) + 2 <= length message)%nat ->
    (length (until_ff l) < rounds)%nat ->
    Z.of_nat (idx + length (until_ff l)) < MAX_MSG_LEN ->
    read_message rounds (Z.of_nat idx) rc message w =
    Done (take idx message ++ rc :: until_ff l ++
            0 :: drop (idx + length (until_ff l) + 2) message,
          {| txAddress := txAddress w; txBuffer := txBuffer w;
             rxBuffer := drop (length (until_ff l) + 1) l;
             sent := sent w; peers := peers w |}).
Proof.
  unfold MAX_MSG_LEN.
  induction l as [|c l IH]; intros rounds idx rc message w Hrx Hchars Hfit Hrounds Hidx.
  - destruct rounds as [|rounds]; [simpl in Hrounds; lia|].
    simpl in Hfit, Hidx. cbn [read_message until_ff length].
    destruct (Z.ltb_spec (Z.of_nat idx) MAX_MSG_LEN) as [_|Hge];
      [|unfold MAX_MSG_LEN in Hge; lia].
    rewrite store_in_range by lia. cbn [obind].
    unfold Wire_read. rewrite Hrx. change (to_char (-1) =? 255) with true.
    cbv iota. rewrite Nat2Z.id, store_byte_and_terminator by lia. cbn [obind].
    rewrite Nat.add_0_r. do 2 f_equal. destruct w; simpl in *; subst; reflexivity.
  - apply Forall_cons in Hchars as [Hc Hchars].
    destruct rounds as [|rounds]; [simpl in Hrounds; lia|].
    cbn [read_message].
    destruct (Z.ltb_spec (Z.of_nat idx) MAX_MSG_LEN) as [_|Hge];
      [|unfold MAX_MSG_LEN in Hge; lia].
    assert (Hidxfit : (idx + 2 <= length message)%nat) by lia.
    rewrite store_in_range by lia. cbn [obind].
    unfold Wire_read. rewrite Hrx. rewrite (to_char_id c Hc). rewrite Nat2Z.id.
    simpl until_ff in *. destruct (Z.eqb_spec c 255) as [->|Hff].
    + rewrite store_byte_and_terminator by lia. cbn [obind]. simpl. rewrite Nat.add_0_r.
      rewrite drop_0. reflexivity.
    + simpl length in *.
      replace (Z.of_nat idx + 1) with (Z.of_nat (S idx)) by lia.
      rewrite (IH rounds (S idx) c (<[idx := rc]> message));
        [|reflexivity|exact Hchars|rewrite length_insert; lia|lia|lia].
      cbn [txAddress txBuffer sent peers rxBuffer]. f_equal. f_equal.
      rewrite (take_S_r _ _ rc) by (apply list_lookup_insert_eq; lia).
      rewrite take_insert_ge by lia. rewrite <- app_assoc. simpl.
      do 3 f_equal.
      rewrite drop_insert_lt by lia.
      replace (S (idx + length (until_ff l) + 2))
        with (idx + S (length (until_ff l)) + 2)%nat by lia.
      reflexivity.
Qed.

End Polling.

Section PollingRuns.
Context {E : Type} `{Bus E}.

(** One round of [scanMessages], step by step, on any bus: [reply] is
    what the polled client answers to the request for 8 bytes. *)
Lemma scan_step_run (i : Z) (block : list char) (m : master E) (cl : Z)
  (reply : list char) (e : E) :
  nth (Z.to_nat i) (_clients m) 0 = cl ->
  1 <= cl < 256 ->
  Z.of_nat (length block) = MAX_MSG_LEN + 1 ->
  bus_request (bus_frame (peers (bus m)) cl (frame_of [cl; READ])) cl 8
    = (reply, e) ->
  Forall is_char (take 8 reply) ->
  scan_step (Some block) i m =
  Done {| _num_clients := _num_clients m; _clients := _clients m;
          master_in_messages :=
            match take 8 reply with
            | b0 :: b1 :: rest =>
              if negb (b0 =? 0) && negb (b0 =? ACK) && negb (b0 =? NO_DATA)
              then snd (stringQueueAdd (master_in_messages m)
                          (b0 :: until_ff (b1 :: rest) ++
                           0 :: drop (length (until_ff (b1 :: rest)) + 2) block))
              else master_in_messages m
            | _ => master_in_messages m
            end;
          bus := {| txAddress := cl; txBuffer := [];
                    rxBuffer :=
                      match take 8 reply with
                      | b0 :: b1 :: rest =>
                        if negb (b0 =? 0) && negb (b0 =? ACK)
                           && negb (b0 =? NO_DATA)
                        then drop (length (until_ff (b1 :: rest)) + 1) (b1 :: rest)
                        else b1 :: rest
                      | got => got
                      end;
                    sent := sent (bus m) ++ [(cl, frame_of [cl; READ])];
                    peers := e |} |}.
Proof.
  unfold MAX_MSG_LEN. intros Hcl Hrange Hblock Hreq Hchars.
  assert (Hc : to_char cl = cl) by (apply to_char_id; unfold is_char; lia).
  unfold scan_step. rewrite Hcl, Hc.
  rewrite sendPacket_frame; simpl c_str; destruct (Z.eqb_spec cl 0); try lia;
    [|discriminate|repeat constructor; unfold is_char, READ; lia].
  change (load [cl; READ; 0] 0) with cl. rewrite Hc. cbn [snd].
  unfold Wire_requestFrom. cbn [peers]. rewrite Hreq.
  change (Z.to_nat 8) with 8%nat.
  assert (Hshort : (length (take 8 reply) <= 8)%nat)
    by (rewrite length_take; lia).
  destruct (take 8 reply) as [|b0 [|b1 rest]]; [reflexivity|reflexivity|].
  cbn [length]. destruct (Z.ltb_spec 1 (Z.of_nat (S (S (length rest))))); [|lia].
  unfold Wire_read. cbn [rxBuffer txAddress txBuffer sent peers].
  apply Forall_cons in Hchars as [Hb0 Hchars].
  rewrite (to_char_id b0 Hb0).
  destruct (negb (b0 =? 0) && negb (b0 =? ACK) && negb (b0 =? NO_DATA));
    [|reflexivity].
  pose proof (until_ff_length (b1 :: rest)) as Hff. cbn [length] in Hshort, Hff.
  change 0 with (Z.of_nat 0) at 1.
  rewrite (read_message_run (b1 :: rest));
    [|reflexivity|exact Hchars|lia|unfold MAX_MSG_LEN; lia|unfold MAX_MSG_LEN; lia].
  cbn [obind fst snd txAddress txBuffer sent peers take app]. reflexivity.
Qed.

End PollingRuns.

Lemma polled_message_built (b0 : char) (l block : list char) :
  is_char b0 ->
  negb (b0 =? 0) && negb (b0 =? ACK) && negb (b0 =? NO_DATA) = true ->
  (length l <= 7)%nat ->
  Z.of_nat (length block) = MAX_MSG_LEN + 1 ->
  polled_message (b0 :: until_ff l ++ 0 :: drop (length (until_ff l) + 2) block).
Proof.
  unfold MAX_MSG_LEN. intros Hb0 Hcond Hl Hblock.
  apply andb_true_iff in Hcond as [Hcond Hnd].
  apply andb_true_iff in Hcond as [Hz Hack].
  apply negb_true_iff, Z.eqb_neq in Hz, Hack, Hnd.
  pose proof (until_ff_length l) as Hff.
  unfold polled_message, load, strlen. simpl nth.
  split; [exact Hb0|]. repeat split; try assumption.
  - change (b0 :: until_ff l ++ 0 :: ?r) with ((b0 :: until_ff l) ++ 0 :: r).
    rewrite c_str_app_nul.
    pose proof (c_str_length_le (b0 :: until_ff l)) as Hle.
    change (length (b0 :: until_ff l)) with (S (length (until_ff l))) in Hle.
    lia.
  - simpl length. rewrite length_app. simpl length. rewrite length_drop.
    unfold MAX_MSG_LEN. lia.
Qed.

Section PollingFacts.
Context {E : Type} `{Bus E}.

(** X9.  One round of [scanMessages], on any bus that delivers bytes, for
    a table entry [cl] in 1 .. 255 and a successful allocation.  One READ
    frame is written, addressed to [cl], and 8 bytes are requested.  If at
    least two bytes come back and the first is none of null, ACK and
    NO_DATA, the message handed to the inbound queue is the first byte
    followed by the bytes before the next 0xFF, as a terminated string in
    a block of MAX_MSG_LEN + 1 cells: at most 8 bytes of the answer
    arrive.  Otherwise the inbound queue is left alone. *)
Theorem scan_step_message (i : Z) (block : list char) (m : master E) (cl : Z)
  (reply : list char) (e : E) :
  nth (Z.to_nat i) (_clients m) 0 = cl ->
  1 <= cl < 256 ->
  Z.of_nat (length block) = MAX_MSG_LEN + 1 ->
  bus_request (bus_frame (peers (bus m)) cl (frame_of [cl; READ])) cl 8
    = (reply, e) ->
  Forall is_char (take 8 reply) ->
  exists m',
    scan_step (Some block) i m = Done m' /\
    sent (bus m') = sent (bus m) ++ [(cl, frame_of [cl; READ])] /\
    peers (bus m') = e /\
    _clients m' = _clients m /\ _num_clients m' = _num_clients m /\
    (forall b0 b1 rest,
       take 8 reply = b0 :: b1 :: rest ->
       b0 <> 0 -> b0 <> ACK -> b0 <> NO_DATA ->
       exists message,
         master_in_messages m' =
           snd (stringQueueAdd (master_in_messages m) message) /\
         take (length (until_ff (b1 :: rest)) + 2) message =
           b0 :: until_ff (b1 :: rest) ++ [0] /\
         polled_message message) /\
    ((length (take 8 reply) < 2)%nat \/ hd 0 reply = 0 \/ hd 0 reply = ACK
     \/ hd 0 reply = NO_DATA ->
     master_in_messages m' = master_in_messages m).
Proof.
  intros Hcl Hrange Hblock Hreq Hchars.
  rewrite (scan_step_run i block m cl reply e Hcl Hrange Hblock Hreq Hchars).
  eexists. split; [reflexivity|]. cbn [bus sent peers _clients _num_clients].
  split; [reflexivity|]. split; [reflexivity|]. split; [reflexivity|].
  split; [reflexivity|]. cbn [master_in_messages].
  assert (Hshort : (length (take 8 reply) <= 8)%nat)
    by (rewrite length_take; lia).
  split.
  - intros b0 b1 rest Hgot Hz Hack Hnd. rewrite Hgot in *.
    assert (Hcond : negb (b0 =? 0) && negb (b0 =? ACK) && negb (b0 =? NO_DATA)
                    = true).
    { apply Z.eqb_neq in Hz, Hack, Hnd. rewrite Hz, Hack, Hnd. reflexivity. }
    rewrite Hcond. eexists. split; [reflexivity|]. split.
    + replace (length (until_ff (b1 :: rest)) + 2)%nat
        with (S (length (until_ff (b1 :: rest)) + 1)) by lia.
      cbn [take]. f_equal. rewrite take_app_add. reflexivity.
    + apply polled_message_built; [|exact Hcond| |exact Hblock].
      * apply Forall_cons in Hchars as [Hb0 _]. exact Hb0.
      * cbn [length] in Hshort |- *. lia.
  - intros Hnone.
    destruct (take 8 reply) as [|b0 [|b1 rest]] eqn:Hgot; try reflexivity.
    assert (Hhd : hd 0 reply = b0).
    { destruct reply; [discriminate|]. simpl in Hgot. injection Hgot as -> _.
      reflexivity. }
    rewrite Hhd in Hnone. simpl length in Hnone.
    destruct Hnone as [Hlt|[-> | [-> | ->]]]; [lia|reflexivity..].
Qed.

End PollingFacts.

Lemma stringQueueAdd_entries (q : stringQueue_t) (s : list char) :
  max_size (snd (stringQueueAdd q s)) = max_size q /\
  exists added,
    entries (snd (stringQueueAdd q s)) = entries q ++ added /\
    (added = [] \/ added = [s]).
Proof.
  unfold stringQueueAdd. destruct (stringQueueIsFull q); simpl.
  - split; [reflexivity|]. exists []. rewrite app_nil_r. split; [reflexivity|].
    left. reflexivity.
  - split; [reflexivity|]. exists [s]. split; [reflexivity|]. right. reflexivity.
Qed.

Lemma table_entry (l : list Z) (n i : nat) :
  (i < n)%nat -> (n <= length l)%nat ->
  take n l !! i = Some (nth i l 0).
Proof.
  intros Hi Hn. rewrite lookup_take_lt by lia.
  rewrite nth_lookup. destruct (l !! i) eqn:Hl; [reflexivity|].
  apply lookup_ge_None in Hl. lia.
Qed.

Section Sweep.
Context {E : Type} `{Bus E}.

Lemma scan_loop_run (fresh : Z -> option (list char)) (rounds : nat) :
  bus_of_bytes -> blocks_available fresh ->
  forall (i : Z) (m : master E),
    0 <= i <= _num_clients m ->
    _num_clients m <= Z.of_nat (length (_clients m)) ->
    _num_clients m - i <= Z.of_nat rounds ->
    Forall (fun a => 1 <= a < 256)
      (take (Z.to_nat (_num_clients m)) (_clients m)) ->
    exists m' added,
      scan_loop rounds fresh i m = Done m' /\
      sent (bus m') =
        sent (bus m) ++
        map (fun a => (a, frame_of [a; READ]))
          (drop (Z.to_nat i) (take (Z.to_nat (_num_clients m)) (_clients m))) /\
      _clients m' = _clients m /\ _num_clients m' = _num_clients m /\
      max_size (master_in_messages m') = max_size (master_in_messages m) /\
      entries (master_in_messages m') = entries (master_in_messages m) ++ added /\
      Z.of_nat (length added) <= _num_clients m - i /\
      Forall polled_message added.
Proof.
  intros Hbus Hfresh.
  induction rounds as [|rounds IH]; intros i m Hi Hn Hrounds Htable.
  - assert (i = _num_clients m) as -> by lia.
    exists m, []. rewrite drop_ge by (rewrite length_take; lia).
    simpl. rewrite !app_nil_r. repeat split; try reflexivity; try lia. constructor.
  - cbn [scan_loop]. destruct (Z.ltb_spec i (_num_clients m)) as [Hlt|Hge].
    + destruct (Hfresh i) as (block & -> & Hblock).
      set (n := Z.to_nat (_num_clients m)) in *.
      assert (Hentry : take n (_clients m) !! Z.to_nat i
                       = Some (nth (Z.to_nat i) (_clients m) 0))
        by (apply table_entry; lia).
      set (cl := nth (Z.to_nat i) (_clients m) 0) in *.
      assert (Hcl : 1 <= cl < 256).
      { rewrite Forall_forall in Htable. apply Htable.
        apply list_elem_of_lookup. eauto. }
      destruct (bus_request (bus_frame (peers (bus m)) cl (frame_of [cl; READ]))
                  cl 8) as [reply e] eqn:Hreq.
      assert (Hchars : Forall is_char (take 8 reply)).
      { apply Forall_take. specialize (Hbus (bus_frame (peers (bus m)) cl
                                               (frame_of [cl; READ])) cl 8).
        rewrite Hreq in Hbus. exact Hbus. }
      rewrite (scan_step_run i block m cl reply e eq_refl Hcl Hblock Hreq Hchars).
      cbn [obind].
      match goal with |- context [scan_loop rounds fresh (i + 1) ?mm] =>
        set (m1 := mm) end.
      assert (Hq1 : max_size (master_in_messages m1) = max_size (master_in_messages m) /\
                    exists add1,
                      entries (master_in_messages m1) =
                        entries (master_in_messages m) ++ add1 /\
                      (length add1 <= 1)%nat /\ Forall polled_message add1).
      { subst m1. cbn [master_in_messages].
        assert (Hshort : (length (take 8 reply) <= 8)%nat)
          by (rewrite length_take; lia).
        destruct (take 8 reply) as [|b0 [|b1 rest]];
          try (split; [reflexivity|]; exists []; rewrite app_nil_r;
               repeat split; [simpl; lia|constructor]).
        destruct (negb (b0 =? 0) && negb (b0 =? ACK) && negb (b0 =? NO_DATA))
          eqn:Hcond;
          [|split; [reflexivity|]; exists []; rewrite app_nil_r;
            repeat split; [simpl; lia|constructor]].
        match goal with |- context [stringQueueAdd ?q ?s] =>
          destruct (stringQueueAdd_entries q s) as (Hmax & add1 & Hadd & Hwhich);
          pose proof (polled_message_built b0 (b1 :: rest) block
                        (Forall_inv Hchars) Hcond
                        ltac:(cbn [length] in Hshort |- *; lia) Hblock) as Hgood
        end.
        split; [exact Hmax|]. exists add1. split; [exact Hadd|].
        destruct Hwhich as [-> | ->]; (split; [simpl; lia|]).
        - constructor.
        - constructor; [exact Hgood|constructor]. }
      destruct Hq1 as (Hmax1 & add1 & Hadd1 & Hlen1 & Hgood1).
      destruct (IH (i + 1) m1) as (m' & added & Hloop & Hsent & Hcls & Hnum & Hmax & Hadd & Hlen & Hgood);
        try (subst m1; cbn [_num_clients _clients]; first [lia|exact Htable]).
      exists m', (add1 ++ added). split; [exact Hloop|].
      subst m1. cbn [_num_clients _clients bus sent] in *.
      repeat split; try assumption; try congruence.
      * rewrite Hsent, <- app_assoc. f_equal. fold n.
        rewrite (drop_S _ _ _ Hentry). simpl. do 2 f_equal. f_equal. lia.
      * rewrite Hadd, Hadd1, <- app_assoc. reflexivity.
      * rewrite length_app. lia.
      * apply Forall_app. split; assumption.
    + assert (i = _num_clients m) as -> by lia.
      exists m, []. rewrite drop_ge by (rewrite length_take; lia).
      simpl. rewrite !app_nil_r. repeat split; try reflexivity; try lia. constructor.
Qed.

(** X10.  [scanMessages] on any bus that delivers bytes, with a table of
    [_num_clients] entries in 1 .. 255 and every allocation succeeding:
    it returns; it has written one READ frame to each table entry, in
    table order, and nothing else; the table is as before; the messages
    that were waiting in the inbound queue are still in front, in order;
    at most one message per table entry has been added behind them, each
    a string of at most 8 bytes whose first byte is none of null, ACK and
    NO_DATA. *)
Theorem scanMessages_sweep (fresh : Z -> option (list char)) (m : master E) :
  bus_of_bytes -> blocks_available fresh ->
  0 <= _num_clients m <= Z.of_nat (length (_clients m)) ->
  _num_clients m < 256 ->
  Forall (fun a => 1 <= a < 256)
    (take (Z.to_nat (_num_clients m)) (_clients m)) ->
  exists m' added,
    scanMessages fresh m = Done m' /\
    sent (bus m') =
      sent (bus m) ++
      map (fun a => (a, frame_of [a; READ]))
        (take (Z.to_nat (_num_clients m)) (_clients m)) /\
    _clients m' = _clients m /\ _num_clients m' = _num_clients m /\
    max_size (master_in_messages m') = max_size (master_in_messages m) /\
    entries (master_in_messages m') = entries (master_in_messages m) ++ added /\
    Z.of_nat (length added) <= _num_clients m /\
    Forall polled_message added.
Proof.
  intros Hbus Hfresh Hn Hbyte Htable. unfold scanMessages.
  destruct (scan_loop_run fresh 256 Hbus Hfresh 0 m)
    as (m' & added & Hloop & Hsent & Hrest); try lia; try assumption.
  exists m', added. split; [exact Hloop|]. split; [exact Hsent|].
  rewrite Z.sub_0_r in Hrest. exact Hrest.
Qed.

End Sweep.

Lemma scripted_bus_of_bytes : @bus_of_bytes (list (list Z)) scripted_bus.
Proof.
  intros script address quantity. simpl.
  apply Forall_forall. intros x Hx. apply list_elem_of_In, in_map_iff in Hx.
  destruct Hx as (y & <- & _). apply to_char_is_char.
Qed.

Lemma stale_blocks_available : blocks_available (fun _ => Some stale_block).
Proof. intros k. exists stale_block. split; reflexivity. Qed.

Lemma scan_step_message_witness :
  exists m',
    scan_step (Some stale_block) 0
      (Master 1 (3 :: replicate 15 0) (stringQueueInit MAX_MASTER_QUEUE_SIZE)
         (Wire 0 [] [] [] [[3; 0x68; 0x69; 0xFF; 0x6A]])) = Done m' /\
    sent (bus m') = [(3, frame_of [3; READ])] /\
    exists message,
      entries (master_in_messages m') = [message] /\
      take 4 message = [3; 0x68; 0x69; 0] /\
      polled_message message.
Proof.
  destruct (scan_step_message (E := list (list Z)) 0 stale_block
              (Master 1 (3 :: replicate 15 0)
                 (stringQueueInit MAX_MASTER_QUEUE_SIZE)
                 (Wire 0 [] [] [] [[3; 0x68; 0x69; 0xFF; 0x6A]]))
              3 [3; 0x68; 0x69; 0xFF; 0x6A] [])
    as (m' & Hrun & Hsent & _ & _ & _ & Hmsg & _).
  - reflexivity.
  - lia.
  - reflexivity.
  - reflexivity.
  - repeat constructor; vm_compute; discriminate.
  - exists m'. split; [exact Hrun|]. split; [exact Hsent|].
    destruct (Hmsg 3 0x68 [0x69; 0xFF; 0x6A] eq_refl)
      as (message & Hq & Htake & Hgood); try discriminate.
    exists message. rewrite Hq. split; [reflexivity|]. split; assumption.
Defined.

Lemma scanMessages_sweep_witness :
  exists m' added,
    scanMessages (fun _ => Some stale_block)
      (Master 2 (3 :: 7 :: replicate 14 0) (stringQueueInit MAX_MASTER_QUEUE_SIZE)
         (Wire 0 [] [] [] [[3; 0x68; 0x69]; [NO_DATA]])) = Done m' /\
    sent (bus m') = [(3, frame_of [3; READ]); (7, frame_of [7; READ])] /\
    entries (master_in_messages m') = added /\
    Z.of_nat (length added) <= 2 /\
    Forall polled_message added.
Proof.
  destruct (scanMessages_sweep (E := list (list Z)) (fun _ => Some stale_block)
              (Master 2 (3 :: 7 :: replicate 14 0)
                 (stringQueueInit MAX_MASTER_QUEUE_SIZE)
                 (Wire 0 [] [] [] [[3; 0x68; 0x69]; [NO_DATA]])))
    as (m' & added & Hrun & Hsent & _ & _ & _ & Hq & Hlen & Hgood).
  - exact scripted_bus_of_bytes.
  - exact stale_blocks_available.
  - simpl. lia.
  - simpl. lia.
  - simpl. repeat constructor; lia.
  - exists m', added. split; [exact Hrun|]. split; [exact Hsent|].
    split; [exact Hq|]. split; [exact Hlen|exact Hgood].
Defined.

(** ** From a client to the master *)







(** ** The client table *)

Lemma ascending_snoc (l : list Z) (lo i : Z) :
  ascending_from lo l -> Forall (fun a => a < i) l -> lo <= i ->
  ascending_from lo (l ++ [i]).
Proof.
  revert lo. induction l as [|a l IH]; intros lo Hasc Hlt Hlo; simpl.
  - split; [exact Hlo|exact I].
  - destruct Hasc as [Ha Hasc]. apply Forall_cons in Hlt as [Hai Hlt].
    split; [exact Ha|]. apply IH; [exact Hasc|exact Hlt|lia].
Qed.

Section Table.
Context {E : Type} `{Bus E}.

(** One round of the sweep, for the table: either it is left alone or
    candidate [i] is put behind the entries found so far. *)
Lemma identify_step_table (i : Z) (m : master E) :
  1 <= i < 256 ->
  0 <= _num_clients m < Z.of_nat (length (_clients m)) ->
  Z.of_nat (length (_clients m)) < 256 ->
  exists m',
    identify_step i m = Done m' /\
    master_in_messages m' = master_in_messages m /\
    ((_num_clients m' = _num_clients m /\ _clients m' = _clients m) \/
     (_num_clients m' = _num_clients m + 1 /\
      _clients m' = <[Z.to_nat (_num_clients m) := i]> (_clients m))).
Proof.
  intros Hi Hn Hlen. unfold identify_step.
  assert (Hc : to_char i = i) by (apply to_char_id; unfold is_char; lia).
  rewrite Hc.
  destruct (Wire_requestFrom i 1 (snd (sendPacket [i; PING; 0] (bus m))))
    as [n w].
  destruct (negb (n =? 0)).
  - destruct (Wire_read w) as [rc w'].
    destruct (to_char rc =? ACK).
    + rewrite store_in_range by exact Hn. cbn [obind].
      eexists. split; [reflexivity|]. simpl. split; [reflexivity|]. right.
      unfold to_char. rewrite Z.mod_small by lia. split; reflexivity.
    + eexists. split; [reflexivity|]. simpl. split; [reflexivity|]. left.
      split; reflexivity.
  - eexists. split; [reflexivity|]. simpl. split; [reflexivity|]. left.
    split; reflexivity.
Qed.

Lemma identify_loop_table (rounds : nat) :
  forall (i : Z) (m : master E),
    1 <= i <= MAX_CLIENTS ->
    MAX_CLIENTS - i <= Z.of_nat rounds ->
    0 <= _num_clients m < i ->
    Z.of_nat (length (_clients m)) = MAX_CLIENTS ->
    ascending_from 1 (take (Z.to_nat (_num_clients m)) (_clients m)) ->
    Forall (fun a => a < i) (take (Z.to_nat (_num_clients m)) (_clients m)) ->
    Forall (fun a => a = 0) (drop (Z.to_nat (_num_clients m)) (_clients m)) ->
    exists m',
      identify_loop rounds i m = Done m' /\
      master_in_messages m' = master_in_messages m /\
      0 <= _num_clients m' < MAX_CLIENTS /\
      Z.of_nat (length (_clients m')) = MAX_CLIENTS /\
      ascending_from 1 (take (Z.to_nat (_num_clients m')) (_clients m')) /\
      Forall (fun a => a < MAX_CLIENTS)
        (take (Z.to_nat (_num_clients m')) (_clients m')) /\
      Forall (fun a => a = 0) (drop (Z.to_nat (_num_clients m')) (_clients m')).
Proof.
  unfold MAX_CLIENTS.
  induction rounds as [|rounds IH]; intros i m Hi Hrounds Hn Hlen Hasc Hlt Hzero.
  - assert (i = 16) as -> by lia. exists m. split; [reflexivity|].
    repeat split; try assumption; lia.
  - cbn [identify_loop]. unfold MAX_CLIENTS.
    destruct (Z.ltb_spec i 16) as [Hi16|Hge].
    + destruct (identify_step_table i m) as (m1 & Hstep & Hq1 & Hcases); try lia.
      rewrite Hstep. cbn [obind].
      assert (Hnext : exists m',
                identify_loop rounds (i + 1) m1 = Done m' /\
                master_in_messages m' = master_in_messages m1 /\
                0 <= _num_clients m' < 16 /\
                Z.of_nat (length (_clients m')) = 16 /\
                ascending_from 1 (take (Z.to_nat (_num_clients m')) (_clients m')) /\
                Forall (fun a => a < 16)
                  (take (Z.to_nat (_num_clients m')) (_clients m')) /\
                Forall (fun a => a = 0)
                  (drop (Z.to_nat (_num_clients m')) (_clients m'))).
      { destruct Hcases as [[Hsame Htab]|[Hmore Htab]].
        - apply IH; rewrite ?Hsame, ?Htab; try assumption; try lia.
          eapply Forall_impl; [exact Hlt|]. intros a Ha. cbv beta in Ha. lia.
        - set (n := Z.to_nat (_num_clients m)) in *.
          assert (Htake : take (Z.to_nat (_num_clients m + 1))
                            (<[n := i]> (_clients m))
                          = take n (_clients m) ++ [i]).
          { replace (Z.to_nat (_num_clients m + 1)) with (S n) by lia.
            rewrite (take_S_r _ _ i) by (apply list_lookup_insert_eq; lia).
            rewrite take_insert_ge by lia. reflexivity. }
          apply IH; rewrite ?Hmore, ?Htab, ?length_insert, ?Htake;
            try assumption; try lia.
          + apply ascending_snoc; [exact Hasc|exact Hlt|lia].
          + apply Forall_app. split.
            * eapply Forall_impl; [exact Hlt|]. intros a Ha. cbv beta in Ha. lia.
            * constructor; [lia|constructor].
          + replace (Z.to_nat (_num_clients m + 1)) with (n + 1)%nat by lia.
            rewrite drop_insert_lt by lia.
            rewrite <- (drop_drop (_clients m) 1 n).
            apply Forall_drop. exact Hzero. }
      destruct Hnext as (m' & Hloop & Hq & Hrest).
      exists m'. split; [exact Hloop|]. split; [congruence|exact Hrest].
    + assert (i = 16) as -> by lia. exists m. split; [reflexivity|].
      repeat split; try assumption; lia.
Qed.

(** X12.  The table that [identifyClients] builds, on any bus and from any
    state of the master: the count returned is the number of entries, at
    most MAX_CLIENTS - 1; the entries are candidates in
    1 .. MAX_CLIENTS - 1 in strictly ascending order, so no client is
    listed twice; the cells behind them are null; the inbound queue is not
    touched.  [getClients] into an array of MAX_CLIENTS cells then copies
    exactly these entries, leaves the other cells of the array alone and
    returns the same count. *)
Theorem identifyClients_table (m : master E) (dst : list Z) :
  exists n m',
    identifyClients m = Done (n, m') /\
    n = _num_clients m' /\ 0 <= n <= MAX_CLIENTS - 1 /\
    Z.of_nat (length (_clients m')) = MAX_CLIENTS /\
    ascending_from 1 (take (Z.to_nat n) (_clients m')) /\
    Forall (fun a => a <= MAX_CLIENTS - 1) (take (Z.to_nat n) (_clients m')) /\
    Forall (fun a => a = 0) (drop (Z.to_nat n) (_clients m')) /\
    master_in_messages m' = master_in_messages m /\
    (Z.of_nat (length dst) = MAX_CLIENTS ->
     SWireMaster_getClients (Some dst) m' =
     Done (n, Some (take (Z.to_nat n) (_clients m') ++ drop (Z.to_nat n) dst))) /\
    SWireMaster_getClients None m' = Done (n, None).
Proof.
  unfold identifyClients.
  destruct (identify_loop_table (Z.to_nat MAX_CLIENTS) 1
              {| _num_clients := 0;
                 _clients := replicate (Z.to_nat MAX_CLIENTS) 0;
                 master_in_messages := master_in_messages m; bus := bus m |})
    as (m' & Hloop & Hq & Hn & Hlen & Hasc & Hlt & Hzero);
    [unfold MAX_CLIENTS; lia|unfold MAX_CLIENTS; lia|simpl; lia|reflexivity
    |exact I|constructor| |].
  - simpl. repeat constructor.
  - rewrite Hloop. cbn [obind]. exists (_num_clients m'), m'.
    split; [reflexivity|]. split; [reflexivity|].
    unfold MAX_CLIENTS in *. split; [lia|]. split; [exact Hlen|].
    split; [exact Hasc|]. split.
    { eapply Forall_impl; [exact Hlt|]. intros a Ha. cbv beta in Ha. lia. }
    split; [exact Hzero|]. split; [exact Hq|]. split; [|reflexivity].
    intros Hdst. unfold SWireMaster_getClients, memcpy.
    destruct (Z.leb_spec (Z.of_nat (Z.to_nat (_num_clients m')))
                (Z.of_nat (length dst))); [|lia].
    destruct (Z.leb_spec (Z.of_nat (Z.to_nat (_num_clients m')))
                (Z.of_nat (length (_clients m')))); [|lia].
    reflexivity.
Qed.

End Table.

Lemma identifyClients_table_witness :
  exists n m',
    identifyClients
      (Master 7 (replicate 16 9) (stringQueueInit MAX_MASTER_QUEUE_SIZE)
         (Wire 0 [] [] [] [[ACK]; [NO_DATA]; [ACK]])) = Done (n, m') /\
    n = _num_clients m' /\ 0 <= n <= MAX_CLIENTS - 1 /\
    ascending_from 1 (take (Z.to_nat n) (_clients m')) /\
    SWireMaster_getClients (Some (replicate 16 7)) m' =
    Done (n, Some (take (Z.to_nat n) (_clients m') ++
                   drop (Z.to_nat n) (replicate 16 7))).
Proof.
  destruct (identifyClients_table (E := list (list Z))
              (Master 7 (replicate 16 9) (stringQueueInit MAX_MASTER_QUEUE_SIZE)
                 (Wire 0 [] [] [] [[ACK]; [NO_DATA]; [ACK]]))
              (replicate 16 7))
    as (n & m' & Hrun & Hn & Hrange & _ & Hasc & _ & _ & _ & Hget & _).
  exists n, m'. split; [exact Hrun|]. split; [exact Hn|]. split; [exact Hrange|].
  split; [exact Hasc|]. apply Hget. reflexivity.
Defined.

(** ** Discovery on the bus with one client *)

(** One round of the sweep on the bus with one client: candidates other
    than the client's number get no answer; the client's own number is
    acknowledged and entered.  The client's queues are not touched. *)
Lemma identify_step_one_client (i : Z) (m : master client) :
  1 <= i < MAX_CLIENTS ->
  1 <= _client_number (peers (bus m)) < MAX_CLIENTS ->
  Z.of_nat (length (buf (rp_statics (peers (bus m))))) = MAX_MSG_LEN + 1 ->
  0 <= _num_clients m < Z.of_nat (length (_clients m)) ->
  Z.of_nat (length (_clients m)) < 256 ->
  exists m',
    identify_step i m = Done m' /\
    master_in_messages m' = master_in_messages m /\
    _client_number (peers (bus m')) = _client_number (peers (bus m)) /\
    Z.of_nat (length (buf (rp_statics (peers (bus m'))))) = MAX_MSG_LEN + 1 /\
    _in_messages (peers (bus m')) = _in_messages (peers (bus m)) /\
    _out_messages (peers (bus m')) = _out_messages (peers (bus m)) /\
    (i <> _client_number (peers (bus m)) ->
     _num_clients m' = _num_clients m /\ _clients m' = _clients m) /\
    (i = _client_number (peers (bus m)) ->
     _num_clients m' = _num_clients m + 1 /\
     _clients m' = <[Z.to_nat (_num_clients m) := i]> (_clients m)).
Proof.
  unfold MAX_CLIENTS. intros Hi Hid Hbuf Hn Hlen.
  set (c := peers (bus m)) in *.
  assert (Hc : to_char i = i) by (apply to_char_id; unfold is_char; lia).
  unfold identify_step. rewrite Hc.
  rewrite sendPacket_frame; simpl c_str; destruct (Z.eqb_spec i 0); try lia;
    [|discriminate|repeat constructor; unfold is_char, PING; lia].
  change (load [i; PING; 0] 0) with i. rewrite Hc. cbn [snd].
  unfold Wire_requestFrom. cbn [peers]. fold c.
  rewrite one_client_frame.
  destruct (Z.eqb_spec i (_client_number c)) as [Heq|Hne].
  - destruct (command_frame i PING ltac:(unfold MAX_CLIENTS; lia)
                (or_introl eq_refl)) as (_ & HP & Hpar).
    destruct (deliver_frame c i [PING] stale_block)
      as (m0 & c2 & Hdel & _ & _ & Hcmd2 & Hin2 & Hout2 & Hnum2 & _ & Hbuf2);
      try assumption; [simpl; unfold MAX_MSG_LEN; lia|reflexivity|].
    simpl in Hcmd2, Hin2. rewrite Hdel.
    rewrite one_client_request, Hnum2, <- Heq, Z.eqb_refl.
    unfold requestEvent. rewrite Hcmd2. simpl.
    rewrite store_in_range by exact Hn. cbn [obind].
    eexists. split; [reflexivity|]. simpl.
    unfold to_char. rewrite Z.mod_small by lia.
    repeat split; try assumption; try reflexivity; try congruence;
      intros; contradiction.
  - rewrite one_client_request.
    destruct (Z.eqb_spec i (_client_number c)); [contradiction|]. simpl.
    eexists. split; [reflexivity|]. simpl. fold c.
    repeat split; try assumption; try reflexivity; intros; contradiction.
Qed.

Lemma identify_loop_one_client (id : Z) (inq outq : stringQueue_t) (rounds : nat) :
  forall (i : Z) (m : master client),
    1 <= id < MAX_CLIENTS ->
    1 <= i <= MAX_CLIENTS ->
    MAX_CLIENTS - i <= Z.of_nat rounds ->
    _client_number (peers (bus m)) = id ->
    Z.of_nat (length (buf (rp_statics (peers (bus m))))) = MAX_MSG_LEN + 1 ->
    _in_messages (peers (bus m)) = inq ->
    _out_messages (peers (bus m)) = outq ->
    (i <= id ->
     _num_clients m = 0 /\ _clients m = replicate (Z.to_nat MAX_CLIENTS) 0) ->
    (id < i ->
     _num_clients m = 1 /\
     _clients m = id :: replicate (Z.to_nat (MAX_CLIENTS - 1)) 0) ->
    exists m',
      identify_loop rounds i m = Done m' /\
      master_in_messages m' = master_in_messages m /\
      _num_clients m' = 1 /\
      _clients m' = id :: replicate (Z.to_nat (MAX_CLIENTS - 1)) 0 /\
      _client_number (peers (bus m')) = id /\
      Z.of_nat (length (buf (rp_statics (peers (bus m'))))) = MAX_MSG_LEN + 1 /\
      _in_messages (peers (bus m')) = inq /\
      _out_messages (peers (bus m')) = outq.
Proof.
  unfold MAX_CLIENTS.
  induction rounds as [|rounds IH];
    intros i m Hid Hi Hrounds Hnum Hbuf Hin Hout Hbefore Hafter.
  - assert (i = 16) as -> by lia. destruct (Hafter ltac:(lia)) as [Hn Htab].
    exists m. repeat split; assumption.
  - cbn [identify_loop]. unfold MAX_CLIENTS.
    destruct (Z.ltb_spec i 16) as [Hi16|Hge].
    + assert (Hshape : 0 <= _num_clients m < Z.of_nat (length (_clients m)) /\
                       Z.of_nat (length (_clients m)) < 256).
      { destruct (Z_le_gt_dec i id) as [Hle|Hgt].
        - destruct (Hbefore Hle) as [-> ->]. simpl. lia.
        - destruct (Hafter ltac:(lia)) as [-> ->]. simpl. lia. }
      destruct Hshape as [Hn Hlen].
      destruct (identify_step_one_client i m)
        as (m1 & Hstep & Hq1 & Hnum1 & Hbuf1 & Hin1 & Hout1 & Hother & Hself);
        try (unfold MAX_CLIENTS; lia); try assumption.
      rewrite Hstep. cbn [obind]. rewrite Hnum in Hother, Hself.
      destruct (IH (i + 1) m1) as (m' & Hloop & Hq & Hrest);
        try lia; try congruence.
      * intros Hle. destruct (Hother ltac:(lia)) as [-> ->]. apply Hbefore. lia.
      * intros Hlt. destruct (Z.eq_dec i id) as [->|Hne].
        -- destruct (Hself eq_refl) as [-> ->].
           destruct (Hbefore ltac:(lia)) as [-> ->]. split; reflexivity.
        -- destruct (Hother Hne) as [-> ->]. apply Hafter. lia.
      * exists m'. split; [exact Hloop|]. split; [congruence|exact Hrest].
    + assert (i = 16) as -> by lia. destruct (Hafter ltac:(lia)) as [Hn Htab].
      exists m. repeat split; assumption.
Qed.

(** X13.  Discovery finds the client and is idempotent.  On the bus with
    one client whose number is in 1 .. MAX_CLIENTS - 1, in whatever state
    the master and the client's queues are, [identifyClients] returns 1
    with that number as the only table entry; it leaves the inbound queue
    of the master and both queues of the client as they were; and run
    again right after, it returns the same count and the same table. *)
Theorem identifyClients_finds_client (m : master client) :
  1 <= _client_number (peers (bus m)) <= MAX_CLIENTS - 1 ->
  Z.of_nat (length (buf (rp_statics (peers (bus m))))) = MAX_MSG_LEN + 1 ->
  exists m1 m2,
    identifyClients m = Done (1, m1) /\
    _clients m1 =
      _client_number (peers (bus m)) :: replicate (Z.to_nat (MAX_CLIENTS - 1)) 0 /\
    master_in_messages m1 = master_in_messages m /\
    _in_messages (peers (bus m1)) = _in_messages (peers (bus m)) /\
    _out_messages (peers (bus m1)) = _out_messages (peers (bus m)) /\
    identifyClients m1 = Done (1, m2) /\
    _clients m2 = _clients m1.
Proof.
  intros Hid Hbuf. unfold identifyClients.
  destruct (identify_loop_one_client (_client_number (peers (bus m)))
              (_in_messages (peers (bus m))) (_out_messages (peers (bus m)))
              (Z.to_nat MAX_CLIENTS) 1
              {| _num_clients := 0;
                 _clients := replicate (Z.to_nat MAX_CLIENTS) 0;
                 master_in_messages := master_in_messages m; bus := bus m |})
    as (m1 & Hloop1 & Hq1 & Hn1 & Htab1 & Hnum1 & Hbuf1 & Hin1 & Hout1);
    try reflexivity; try assumption; try (unfold MAX_CLIENTS in *; simpl; lia).
  { intros _. split; reflexivity. }
  destruct (identify_loop_one_client (_client_number (peers (bus m)))
              (_in_messages (peers (bus m))) (_out_messages (peers (bus m)))
              (Z.to_nat MAX_CLIENTS) 1
              {| _num_clients := 0;
                 _clients := replicate (Z.to_nat MAX_CLIENTS) 0;
                 master_in_messages := master_in_messages m1; bus := bus m1 |})
    as (m2 & Hloop2 & Hq2 & Hn2 & Htab2 & _);
    try reflexivity; try assumption; try (unfold MAX_CLIENTS in *; simpl; lia).
  { intros _. split; reflexivity. }
  exists m1, m2. rewrite Hloop1, Hloop2. cbn [obind]. rewrite Hn1, Hn2.
  repeat split; try assumption. congruence.
Qed.

Lemma identifyClients_finds_client_witness :
  exists m1 m2,
    identifyClients (SWireMaster (SWireClient 5)) = Done (1, m1) /\
    _clients m1 = 5 :: replicate 15 0 /\
    identifyClients m1 = Done (1, m2) /\
    _clients m2 = _clients m1.
Proof.
  destruct (identifyClients_finds_client (SWireMaster (SWireClient 5)))
    as (m1 & m2 & Hrun1 & Htab1 & _ & _ & _ & Hrun2 & Htab2).
  - vm_compute. split; discriminate.
  - reflexivity.
  - exists m1, m2. split; [exact Hrun1|]. split; [exact Htab1|].
    split; [exact Hrun2|exact Htab2].
Defined.

(** *** The master's [getData] *)

Lemma char_to_int_nonzero (c : char) : is_char c -> c <> 0 -> char_to_int c <> 0.
Proof.
  unfold is_char, char_to_int. intros Hc Hnz.
  destruct (Z.ltb_spec c 128); lia.
Qed.

Lemma polled_message_tail (msg buffer : list char) :
  polled_message msg -> 8 <= Z.of_nat (length buffer) ->
  exists out,
    strcpy buffer 0 (drop 1 msg) = Done out /\
    c_str out = c_str (drop 1 msg) /\
    length out = length buffer /\ strlen out <= 7.
Proof.
  intros (_ & Hnz & _ & _ & Hlen & Hsize) Hbuf.
  destruct msg as [|b0 msg]; [unfold MAX_MSG_LEN in Hsize; simpl in Hsize; lia|].
  unfold load in Hnz. simpl nth in Hnz.
  unfold strlen in Hlen. simpl c_str in Hlen.
  destruct (Z.eqb_spec b0 0) as [Hz|_]; [contradiction|].
  cbn [length] in Hlen. change (drop 1 (b0 :: msg)) with (drop 0 msg).
  rewrite drop_0.
  destruct (strcpy_fits buffer msg) as (out & Hrun & Hstr & Hout); [lia|].
  exists out. split; [exact Hrun|]. split; [exact Hstr|]. split; [exact Hout|].
  unfold strlen. rewrite Hstr. lia.
Qed.

Section GetData.
Context {E : Type} `{Bus E}.

Lemma getData_dequeue (buffer : list char) (lastTime' : Z) (m : master E) :
  Forall polled_message (entries (master_in_messages m)) ->
  8 <= Z.of_nat (length buffer) ->
  exists ret out m',
    (if stringQueueIsEmpty (master_in_messages m)
     then Done (0, buffer, lastTime', m)
     else
       match stringQueueRemove (master_in_messages m) with
       | (Some message, q) =>
         do out <- strcpy buffer 0 (drop 1 message);
         Done (char_to_int (load message 0), out, lastTime',
               {| _num_clients := _num_clients m; _clients := _clients m;
                  master_in_messages := q; bus := bus m |})
       | (None, _) => Done (0, buffer, lastTime', m)
       end) = Done (ret, out, lastTime', m') /\
    bus m' = bus m /\ _clients m' = _clients m /\
    _num_clients m' = _num_clients m /\
    length out = length buffer /\
    match entries (master_in_messages m) with
    | [] => ret = 0 /\ out = buffer /\ entries (master_in_messages m') = []
    | msg :: rest =>
      ret = char_to_int (load msg 0) /\ ret <> 0 /\
      c_str out = c_str (drop 1 msg) /\ strlen out <= 7 /\
      entries (master_in_messages m') = rest
    end.
Proof.
  intros Hq Hbuf. unfold stringQueueIsEmpty, stringQueueRemove.
  destruct (entries (master_in_messages m)) as [|msg rest] eqn:Hentries.
  - exists 0, buffer, m. rewrite Hentries. repeat split; reflexivity.
  - apply Forall_cons in Hq as [Hmsg _].
    destruct (polled_message_tail msg buffer Hmsg Hbuf)
      as (out & Hrun & Hstr & Hout & Hlen).
    rewrite Hrun. cbn [obind].
    eexists _, out, _. split; [reflexivity|]. cbn [bus _clients _num_clients
      master_in_messages entries].
    repeat split; try assumption.
    destruct Hmsg as (Hchar & Hnz & _). apply char_to_int_nonzero; assumption.
Qed.

(** X14.  The master's [getData], on any bus that delivers bytes, with a
    table of [_num_clients] entries in 1 .. 255, every allocation
    succeeding, an inbound queue that holds what [scanMessages] has put
    there, and a [buffer] of at least 8 cells: it returns, with [buffer]
    at its size.  When more than 100 ms (modulo 2^32) have passed since
    [lastTime] it polls every table entry once and takes the second
    reading of the clock as the new [lastTime]; otherwise the bus is not
    touched and [lastTime] stays.  With nothing queued and nothing
    polled the answer is 0 and [buffer] is as before.  Otherwise the
    oldest message is taken from the queue: the answer is its first
    byte read as an [int], which is not 0, and [buffer] holds the rest of
    it, a string of at most 7 bytes.  What stays in the queue is again
    what [scanMessages] puts there. *)
Theorem master_getData_answer (fresh : Z -> option (list char))
  (lastTime now now' : Z) (buffer : list char) (m : master E) :
  bus_of_bytes -> blocks_available fresh ->
  0 <= _num_clients m <= Z.of_nat (length (_clients m)) ->
  _num_clients m < 256 ->
  Forall (fun a => 1 <= a < 256)
    (take (Z.to_nat (_num_clients m)) (_clients m)) ->
  Forall polled_message (entries (master_in_messages m)) ->
  8 <= Z.of_nat (length buffer) ->
  exists ret out lastTime' m' added,
    SWireMaster_getData fresh lastTime now now' buffer m
      = Done (ret, out, lastTime', m') /\
    (if 100 <? (now - lastTime) mod 2 ^ 32
     then lastTime' = now' /\
          sent (bus m') =
            sent (bus m) ++
            map (fun a => (a, frame_of [a; READ]))
              (take (Z.to_nat (_num_clients m)) (_clients m))
     else lastTime' = lastTime /\ bus m' = bus m /\ added = []) /\
    _clients m' = _clients m /\ _num_clients m' = _num_clients m /\
    length out = length buffer /\
    Forall polled_message (entries (master_in_messages m')) /\
    match entries (master_in_messages m) ++ added with
    | [] => ret = 0 /\ out = buffer /\ entries (master_in_messages m') = []
    | msg :: rest =>
      ret = char_to_int (load msg 0) /\ ret <> 0 /\
      c_str out = c_str (drop 1 msg) /\ strlen out <= 7 /\
      entries (master_in_messages m') = rest
    end.
Proof.
  intros Hbus Hfresh Hn Hbyte Htable Hq Hbuf. unfold SWireMaster_getData.
  destruct (Z.ltb_spec 100 ((now - lastTime) mod 2 ^ 32)) as [Hdue|Hearly].
  - unfold scanMessages.
    destruct (scan_loop_run fresh 256 Hbus Hfresh 0 m)
      as (ms & added & Hloop & Hsent & Hcl & Hnum & _ & Hadded & _ & Hpolled);
      [lia|lia|lia|exact Htable|].
    rewrite Hloop. cbn [obind].
    assert (Hqs : Forall polled_message (entries (master_in_messages ms))).
    { rewrite Hadded. apply Forall_app. split; assumption. }
    destruct (getData_dequeue buffer now' ms Hqs Hbuf)
      as (ret & out & m' & Hrun & Hb & Hc & Hk & Hout & Hcase).
    exists ret, out, now', m', added. split; [exact Hrun|].
    split; [split; [reflexivity|rewrite Hb; exact Hsent]|].
    split; [congruence|]. split; [congruence|]. split; [exact Hout|].
    rewrite <- Hadded.
    destruct (entries (master_in_messages ms)) as [|msg rest].
    + destruct Hcase as (-> & -> & ->). split; [constructor|]. repeat split.
    + destruct Hcase as (Hret & Hnz & Hstr & Hlen & ->).
      apply Forall_cons in Hqs as [_ Hrest]. split; [exact Hrest|].
      repeat split; assumption.
  - cbn [obind].
    destruct (getData_dequeue buffer lastTime m Hq Hbuf)
      as (ret & out & m' & Hrun & Hb & Hc & Hk & Hout & Hcase).
    exists ret, out, lastTime, m', []. split; [exact Hrun|].
    split; [repeat split; exact Hb|].
    split; [exact Hc|]. split; [exact Hk|]. split; [exact Hout|].
    rewrite app_nil_r.
    destruct (entries (master_in_messages m)) as [|msg rest].
    + destruct Hcase as (-> & -> & ->). split; [constructor|]. repeat split.
    + destruct Hcase as (Hret & Hnz & Hstr & Hlen & ->).
      apply Forall_cons in Hq as [_ Hrest]. split; [exact Hrest|].
      repeat split; assumption.
Qed.

End GetData.

Lemma master_getData_answer_witness :
  exists ret out lastTime' m' added,
    SWireMaster_getData (fun _ => Some stale_block) 0 500 501 (replicate 8 0x41)
      (Master 1 (3 :: replicate 15 0) (stringQueueInit MAX_MASTER_QUEUE_SIZE)
         (Wire 0 [] [] [] [[3; 0x68; 0x69]])) = Done (ret, out, lastTime', m') /\
    lastTime' = 501 /\
    sent (bus m') = [(3, frame_of [3; READ])] /\
    length out = 8%nat /\
    match added with
    | [] => ret = 0 /\ out = replicate 8 0x41
    | msg :: rest =>
      ret = char_to_int (load msg 0) /\ ret <> 0 /\
      c_str out = c_str (drop 1 msg) /\ entries (master_in_messages m') = rest
    end.
Proof.
  destruct (master_getData_answer (E := list (list Z)) (fun _ => Some stale_block)
              0 500 501 (replicate 8 0x41)
              (Master 1 (3 :: replicate 15 0)
                 (stringQueueInit MAX_MASTER_QUEUE_SIZE)
                 (Wire 0 [] [] [] [[3; 0x68; 0x69]])))
    as (ret & out & lastTime' & m' & added & Hrun & Htime & _ & _ & Hout & _ & Hcase).
  - exact scripted_bus_of_bytes.
  - exact stale_blocks_available.
  - simpl. lia.
  - simpl. lia.
  - simpl. repeat constructor; lia.
  - constructor.
  - simpl. lia.
  - change (100 <? (500 - 0) mod 2 ^ 32) with true in Htime. cbv iota in Htime.
    destruct Htime as [Hlast Hsent].
    exists ret, out, lastTime', m', added. split; [exact Hrun|].
    split; [exact Hlast|]. split; [exact Hsent|]. split; [exact Hout|].
    change (entries (master_in_messages _) ++ added) with added in Hcase.
    destruct added as [|msg rest].
    + destruct Hcase as (Hret & Hbuf & _). split; assumption.
    + destruct Hcase as (Hret & Hnz & Hstr & _ & Hrest). repeat split; assumption.
Defined.
